(** * The CMDB portal inventory plugin ([plugins/inventory/portal.py])

    A shallow embedding of [InventoryModule]: the fetch step
    ([_load_inventory_data]), the group-name sanitizer
    ([_sanitize_group_name]), [verify_file] and [parse], which validates the
    payload, sorts the hosts and registers groups, hosts and variables with
    the inventory.

    Python values are embedded as a small universe of JSON-shaped values,
    exceptions as an error result, and the inventory object as the log of the
    calls made on it.

    What belongs to the surroundings is a parameter: the network
    ([requests.get]), the text of jsonschema's error, the iteration order of
    a [set], [str.lower] outside ASCII, and the base class's [verify_file].
    The inventory is the host runtime's: the calls it accepts are recorded.
    [parse] is the run on an inventory that accepts every call;
    [parse_with] is the run on an inventory that may raise on a call, which
    is a parameter too ([refuses]). Reading the configuration and the schema
    file, and the debug output ([display.vvv]), are left out: they come
    before the first call on the inventory. *)

From Stdlib Require Import String Ascii.
From stdpp Require Import base tactics option numbers list sorting.

Set Default Proof Using "Type".
Local Open Scope N_scope.

(** ** Python strings *)

(** A Python [str] is a sequence of Unicode code points. *)
Definition str := list N.

(** The code point of an ASCII character, and the [str] of an ASCII literal. *)
Definition chr (a : ascii) : N := N_of_ascii a.

Fixpoint py (s : string) : str :=
  match s with
  | EmptyString => []
  | String a s' => chr a :: py s'
  end.

Arguments py : simpl never.

(** [a < b] on [str]: lexicographic by code point, a proper prefix first. *)
Fixpoint str_ltb (a b : str) : bool :=
  match a, b with
  | _, [] => false
  | [], _ :: _ => true
  | x :: a', y :: b' =>
      if x <? y then true else if y <? x then false else str_ltb a' b'
  end.

(** [a <= b], which on [str] is [not (b < a)]. *)
Definition str_leb (a b : str) : bool := negb (str_ltb b a).

(** ** Group-name sanitization *)

Definition in_range (lo hi : ascii) (c : N) : bool :=
  (chr lo <=? c) && (c <=? chr hi).

(** The character class [[A-Za-z0-9\_\-]] whose complement the regular
    expression of [_sanitize_group_name] matches. *)
Definition in_class (c : N) : bool :=
  in_range "A" "Z" c || in_range "a" "z" c || in_range "0" "9" c
  || (c =? chr "_") || (c =? chr "-").

(** [regex.sub("_", name)]: every code point outside the class is a match of
    length one and is replaced by an underscore. *)
Definition regex_sub (name : str) : str :=
  (λ c, if in_class c then c else chr "_") <$> name.

Definition is_ascii (c : N) : bool := c <? 128.

Definition ascii_lower (c : N) : N :=
  if in_range "A" "Z" c then c + 32 else c.

(** [.replace('-', '_')] *)
Definition replace_hyphen (s : str) : str :=
  (λ c, if c =? chr "-" then chr "_" else c) <$> s.

(** The result alphabet [[a-z0-9_]]. *)
Definition in_result_alphabet (c : N) : bool :=
  in_range "a" "z" c || in_range "0" "9" c || (c =? chr "_").

(** One character through the three steps, for ASCII input of [lower]. *)
Definition sanitize_char (c : N) : N :=
  let c1 := if in_class c then c else chr "_" in
  let c2 := ascii_lower c1 in
  if c2 =? chr "-" then chr "_" else c2.

Ltac eval_chr :=
  repeat match goal with
    | |- context [chr ?a] =>
        let v := eval vm_compute in (chr a) in change (chr a) with v
    | H : context [chr ?a] |- _ =>
        let v := eval vm_compute in (chr a) in change (chr a) with v in H
    end.

Ltac bool_to_prop :=
  unfold in_range in *; eval_chr;
  rewrite ?orb_true_iff, ?orb_false_iff, ?andb_true_iff, ?andb_false_iff,
    ?N.leb_le, ?N.leb_gt, ?N.eqb_eq, ?N.eqb_neq, ?N.ltb_lt in *.

(** ** Python values, exceptions and results *)

(** The values [response.json()] produces, as the plugin sees them: [None],
    [bool], numbers (never inspected, kept as their literal), [str], [list]
    and [dict] (its items in insertion order, keys unique). *)
#[warnings="-register-all"]
Inductive value : Type :=
  | PyNone
  | PyBool (b : bool)
  | PyNum (literal : str)
  | PyStr (s : str)
  | PyList (items : list value)
  | PyDict (items : list (str * value)).

(** The exceptions that cross a function boundary of the plugin. Of the
    interpreter's own [TypeError] and [KeyError] only the class is kept. *)
Inductive exn : Type :=
  | AnsibleError (message : str)
  | ValidationError (message : str)
  | TypeError
  | KeyError (key : str).

Inductive result (A : Type) : Type :=
  | Ok (a : A)
  | Raise (e : exn).
Arguments Ok {A} a.
Arguments Raise {A} e.

#[global] Instance result_ret : MRet result := λ A a, Ok a.
#[global] Instance result_bind : MBind result := λ A B f m,
  match m with
  | Ok a => f a
  | Raise e => Raise e
  end.

Fixpoint dict_lookup (key : str) (items : list (str * value)) : option value :=
  match items with
  | [] => None
  | (k, v) :: items' => if bool_decide (k = key) then Some v else dict_lookup key items'
  end.

(** [obj[key]] for a [str] key: a [dict] is looked up, anything else is not
    subscriptable by a [str]. *)
Definition getitem (obj : value) (key : str) : result value :=
  match obj with
  | PyDict items =>
      match dict_lookup key items with
      | Some v => Ok v
      | None => Raise (KeyError key)
      end
  | _ => Raise TypeError
  end.

(** What a [for] loop (or [sorted]) iterates over. *)
Definition iterate (obj : value) : result (list value) :=
  match obj with
  | PyList items => Ok items
  | PyStr s => Ok ((λ c, PyStr [c]) <$> s)
  | PyDict items => Ok ((λ kv, PyStr kv.1) <$> items)
  | _ => Raise TypeError
  end.

(** [obj != [None]] is false for the one-element list holding [None] only. *)
Definition is_none_list (obj : value) : bool :=
  match obj with
  | PyList [PyNone] => true
  | _ => false
  end.

(** [s.endswith(suffix)] *)
Definition endswith (s suffix : str) : bool := bool_decide (suffix `suffix_of` s).

(** ** The inventory *)

(** The calls the plugin makes on [self.inventory]. *)
Inductive call : Type :=
  | add_group (group : str)
  | add_host (host : value) (group : str)
  | set_variable (entity : value) (varname : str) (val : value).

(** Code that uses the inventory: it is given the calls made so far and
    returns a result with the calls made by then; an exception keeps the
    calls made before it was raised. *)
Definition Inventory (A : Type) : Type := list call → result A * list call.

#[global] Instance inventory_ret : MRet Inventory := λ A a log, (Ok a, log).
#[global] Instance inventory_bind : MBind Inventory := λ A B f m log,
  match m log with
  | (Ok a, log') => f a log'
  | (Raise e, log') => (Raise e, log')
  end.

(** A step that touches no inventory. *)
Definition pure {A} (r : result A) : Inventory A := λ log, (r, log).

(** A call on the inventory that the inventory accepts: it returns and is
    recorded. ([inventory_call] below is the call on an inventory that may
    raise.) *)
Definition inventory (c : call) : Inventory unit := λ log, (Ok tt, log ++ [c]).

(** [for x in xs: body] *)
Fixpoint for_each {A} (xs : list A) (body : A → Inventory unit) : Inventory unit :=
  match xs with
  | [] => mret tt
  | x :: xs' => body x ;; for_each xs' body
  end.

(** ** Sorting *)

(** [sorted] is stable: an item goes before the first one that does not
    compare less than it; in the input it precedes them all. *)
Fixpoint insert_by {A} (key : A → str) (x : A) (l : list A) : list A :=
  match l with
  | [] => [x]
  | y :: l' => if str_ltb (key y) (key x) then y :: insert_by key x l' else x :: y :: l'
  end.

Definition stable_sort {A} (key : A → str) (l : list A) : list A :=
  foldr (insert_by key) [] l.

(** [sorted(items, key=key)]: the keys are computed once, in order, then the
    items are sorted by them. The keys compared here are [str]: validation
    comes first in [parse] and leaves no other; a key of another type is
    mapped to [TypeError]. *)
Definition sorted (items : list value) (key : value → result value) : result (list value) :=
  keyed ← mapM (λ item,
             k ← key item;
             match k with
             | PyStr s => Ok (s, item)
             | _ => Raise TypeError
             end) items;
  mret (snd <$> stable_sort fst keyed).

(** ** The network *)

(** What [requests.get] does: it returns a response, whose [json()] either
    gives the decoded body or raises with some text, or it raises itself. *)
Inductive reply : Type :=
  | response (status_code : Z) (json : str + value)
  | request_raises (text : str).

(** ** The data model and the schema of the specification *)

(** RawHostRecord of the specification: [primary_address], [group_list]
    (strings, or the null placeholder) and [enabled]. *)
Record RawHostRecord : Type := {
  primary_address : str;
  group_list : list (option str);
  enabled : bool;
}.

Definition PRIMARY_KEY : str := py "primary_address".

(** Modelled from the spec: the schema [plugin_utils/portal-cmdb-schema.json]
    that [parse] loads is not among the sources. The specification has it
    constrain [hosts] to be a sequence of objects each requiring
    [primary_address] (string) and [enabled] (boolean), with [group_list]
    being a sequence of strings or null. [parse] reads [group_list] of every
    host, so it is taken as required too. The three definitions below read a
    value that has this shape as records, and [conforms] says that it has. *)
Definition decode_group (v : value) : option (option str) :=
  match v with
  | PyStr s => Some (Some s)
  | PyNone => Some None
  | _ => None
  end.

Definition decode_host (host : value) : option RawHostRecord :=
  match host with
  | PyDict items =>
      match dict_lookup PRIMARY_KEY items,
            dict_lookup (py "group_list") items,
            dict_lookup (py "enabled") items with
      | Some (PyStr a), Some (PyList gl), Some (PyBool e) =>
          groups ← mapM decode_group gl;
          Some {| primary_address := a; group_list := groups; enabled := e |}
      | _, _, _ => None
      end
  | _ => None
  end.

Definition decode_payload (payload : value) : option (list RawHostRecord) :=
  match payload with
  | PyDict items =>
      match dict_lookup (py "hosts") items with
      | Some (PyList hosts) => mapM decode_host hosts
      | _ => None
      end
  | _ => None
  end.

(** Modelled from the spec: the schema accepts a payload when it has the
    shape above. *)
Definition conforms (payload : value) : bool :=
  bool_decide (is_Some (decode_payload payload)).

(** The sort key of a host, where it is a [str]. *)
Definition key_of (host : value) : str :=
  match getitem host PRIMARY_KEY with
  | Ok (PyStr s) => s
  | _ => []
  end.

(** ** Reading the inventory off the calls *)

Definition created_group (c : call) : option str :=
  match c with
  | add_group g => Some g
  | _ => None
  end.

(** The groups created, in order. *)
Definition groups_created (log : list call) : list str :=
  omap created_group log.

Definition joined_group (host : str) (c : call) : option str :=
  match c with
  | add_host (PyStr h) g => if bool_decide (h = host) then Some g else None
  | _ => None
  end.

(** The groups a host was added to, in order. *)
Definition groups_of (log : list call) (host : str) : list str :=
  omap (joined_group host) log.

Definition named_host (c : call) : option (value * value) :=
  match c with
  | set_variable h k v =>
      if bool_decide (k = py "ansible_host") then Some (h, v) else None
  | _ => None
  end.

(** The hosts registered, in order, each with its [ansible_host]: a host is
    given that variable once, right after it is added. *)
Definition registered (log : list call) : list (value * value) :=
  omap named_host log.

Definition assigned (host varname : str) (c : call) : option value :=
  match c with
  | set_variable (PyStr h) k v =>
      if bool_decide (h = host ∧ k = varname) then Some v else None
  | _ => None
  end.

(** The value that the last [set_variable] call for an entity name and a
    variable name passes. Which entity of that name the inventory assigns it
    to (it looks a name up among the groups before the hosts) is the
    inventory's matter, not the plugin's. *)
Definition variable (log : list call) (host varname : str) : option value :=
  last (omap (assigned host varname) log).

(** ** Sample payloads and surroundings *)

Definition host_object (address : string) (groups : list value) (en : bool) : value :=
  PyDict [(py "primary_address", PyStr (py address));
          (py "group_list", PyList groups);
          (py "enabled", PyBool en)].

Definition payload_of (hosts : list value) : value :=
  PyDict [(py "hosts", PyList hosts)].

(** The scenario of the specification: [node-02] in group [Compute!],
    [node-01] with the placeholder. *)
Definition scenario_payload : value :=
  payload_of [host_object "node-02" [PyStr (py "Compute!")] true;
              host_object "node-01" [PyNone] false].

(** A group list that mixes a name with null. *)
Definition mixed_payload : value :=
  payload_of [host_object "node-01" [PyStr (py "ops"); PyNone] true].

(** Two hosts under one address. *)
Definition duplicate_payload : value :=
  payload_of [host_object "node-01" [PyStr (py "ops")] true;
              host_object "node-00" [PyNone] true;
              host_object "node-01" [PyNone] false].

(** Two hosts under one address, one of them with a mixed group list. *)
Definition duplicate_mixed_payload : value :=
  payload_of [host_object "node-01" [PyStr (py "ops"); PyNone] true;
              host_object "node-01" [PyNone] false].

(** A host without [primary_address]. *)
Definition incomplete_payload : value :=
  payload_of [PyDict [(py "group_list", PyList [PyNone]); (py "enabled", PyBool true)]].

(** The records of [scenario_payload] and of [duplicate_payload]. *)
Definition scenario_records : list RawHostRecord :=
  [ {| primary_address := py "node-02"; group_list := [Some (py "Compute!")]; enabled := true |};
    {| primary_address := py "node-01"; group_list := [None]; enabled := false |} ].

Definition duplicate_records : list RawHostRecord :=
  [ {| primary_address := py "node-01"; group_list := [Some (py "ops")]; enabled := true |};
    {| primary_address := py "node-00"; group_list := [None]; enabled := true |};
    {| primary_address := py "node-01"; group_list := [None]; enabled := false |} ].

(** The scenario with its hosts in the other order, and with a field more
    in each host and the fields in another order. *)
Definition scenario_payload_reversed : value :=
  payload_of [host_object "node-01" [PyNone] false;
              host_object "node-02" [PyStr (py "Compute!")] true].

Definition scenario_payload_annotated : value :=
  PyDict [(py "count", PyNum (py "2"));
          (py "hosts",
           PyList [PyDict [(py "enabled", PyBool true);
                           (py "rack", PyStr (py "r12"));
                           (py "group_list", PyList [PyStr (py "Compute!")]);
                           (py "primary_address", PyStr (py "node-02"))];
                   PyDict [(py "rack", PyNone);
                           (py "primary_address", PyStr (py "node-01"));
                           (py "enabled", PyBool false);
                           (py "group_list", PyList [PyNone])]])].

(** One host in one group, and the calls that register it. *)
Definition single_payload : value :=
  payload_of [host_object "node-01" [PyStr (py "ops")] true].

Definition single_log : list call :=
  [add_group (py "ops");
   add_host (PyStr (py "node-01")) (py "all");
   set_variable (PyStr (py "node-01")) (py "ansible_host") (PyStr (py "node-01"));
   add_host (PyStr (py "node-01")) (py "ops");
   set_variable (PyStr (py "node-01")) (py "enabled") (PyBool true)].

(** A second address, and a network that answers one way there and another
    way elsewhere. *)
Definition other_url : str := py "https://api.example.com/other/".

Definition answers_at (url : str) (there elsewhere : reply) : str → list (str * str) → reply :=
  λ u _, if bool_decide (u = url) then there else elsewhere.

(** A host with an empty [primary_address] beside a host in a group. *)
Definition unnamed_payload : value :=
  payload_of [host_object "node-01" [PyStr (py "ops")] true;
              host_object "" [PyNone] true].

(** An inventory that accepts every call, and one that, as Ansible's does,
    raises on an empty host name or group name. *)
Definition accepts_all : list call → call → option exn := λ _ _, None.

Definition refuses_empty_names : list call → call → option exn := λ _ c,
  match c with
  | add_group [] => Some (AnsibleError (py "Invalid empty/false group name provided: "))
  | add_host (PyStr []) _ => Some (AnsibleError (py "Invalid empty host name provided: "))
  | _ => None
  end.

(** A network that answers every request the same way. *)
Definition answers (r : reply) : str → list (str * str) → reply := λ _ _, r.

(** A validator whose message is the same for every instance. *)
Definition says (text : string) : value → str := λ _, py text.

Definition example_url : str := py "https://api.example.com/route/".
Definition example_token : str := py "123456abcdefgH".

(** ** The plugin *)

Section Plugin.
(** [str.lower] outside ASCII follows the Unicode case tables, which are
    not modelled: they are a parameter of the development. *)
Variable unicode_lower : str → str.

(** The network: what [requests.get(url, headers=headers)] does. *)
Variable requests_get : str → list (str * str) → reply.

(** The text ([to_native]) of the [ValidationError] that jsonschema raises
    for an instance the schema rejects. *)
Variable validation_message : value → str.

(** The order in which [list(set(l))] lists the distinct elements of [l];
    Python leaves it unspecified. *)
Variable set_order : list str → list str.
Hypothesis set_order_NoDup : ∀ l, NoDup (set_order l).
Hypothesis set_order_elem : ∀ l x, x ∈ set_order l ↔ x ∈ l.

(** [BaseInventoryPlugin.verify_file]: whether the path is a file that can
    be read. *)
Variable base_verify_file : str → bool.

Definition NAME : str := py "portal".

(** [verify_file] *)
Definition verify_file (path : str) : bool :=
  let valid := false in
  if base_verify_file path then
    if endswith path (NAME ++ py ".yaml") || endswith path (NAME ++ py ".yml")
    then true
    else valid
  else valid.

(** [s.lower()] *)
Definition lower (s : str) : str :=
  if forallb is_ascii s then ascii_lower <$> s else unicode_lower s.

(** [regex.sub("_", name).lower().replace('-', '_')] on a [str]. *)
Definition sanitize (name : str) : str :=
  replace_hyphen (lower (regex_sub name)).

(** [regex.sub] accepts a [str] only. *)
Definition _sanitize_group_name (name : value) : result str :=
  match name with
  | PyStr s => Ok (sanitize s)
  | _ => Raise TypeError
  end.

Definition headers (cmdb_api_bearer_token : str) : list (str * str) :=
  [(py "Authorization", py "Bearer " ++ cmdb_api_bearer_token);
   (py "Content-Type", py "application/json")].

(** The [try] block of [_load_inventory_data]: the data, or the text
    ([to_native]) of the exception raised inside it. The [AnsibleError] for
    a status other than 200 is raised inside the block as well. *)
Definition try_load (cmdb_api_url cmdb_api_bearer_token : str) : str + value :=
  match requests_get cmdb_api_url (headers cmdb_api_bearer_token) with
  | response status_code json =>
      if (status_code =? 200)%Z then json
      else inl (py "Failed to fetch JSON inventory data from CMDB: "
                ++ cmdb_api_url ++ py ".")
  | request_raises text => inl text
  end.

(** [except Exception as e] wraps whatever the block raised. *)
Definition _load_inventory_data (cmdb_api_url cmdb_api_bearer_token : str) : result value :=
  match try_load cmdb_api_url cmdb_api_bearer_token with
  | inr data => Ok data
  | inl text =>
      Raise (AnsibleError (py "An error occurred, the original exception is: " ++ text))
  end.

(** [validate(instance=raw_data, schema=schema)] *)
Definition validate (instance : value) : result unit :=
  if conforms instance then Ok tt
  else Raise (ValidationError (validation_message instance)).

(** [for x in xs: acc = body(x, acc)], for loops that only build a value. *)
Fixpoint for_acc {A S} (xs : list A) (body : A → S → result S) (acc : S) : result S :=
  match xs with
  | [] => Ok acc
  | x :: xs' => acc' ← body x acc; for_acc xs' body acc'
  end.

(** [host_groups.append(self._sanitize_group_name(val))] *)
Definition append_sanitized (val : value) (host_groups : list str) : result (list str) :=
  g ← _sanitize_group_name val;
  Ok (host_groups ++ [g]).

(** The body of the loop that fills [host_groups]. *)
Definition add_groups_of (host : value) (host_groups : list str) : result (list str) :=
  gl ← getitem host (py "group_list");
  if negb (is_none_list gl) then
    vals ← iterate gl;
    for_acc vals append_sanitized host_groups
  else Ok host_groups.

(** The loop that fills [host_groups] (before [list(set(host_groups))]). *)
Definition collect_groups (sorted_data : list value) : result (list str) :=
  for_acc sorted_data add_groups_of [].

(** The body of the loop that adds the hosts. *)
Definition register_host (host : value) : Inventory unit :=
  hostname ← pure (getitem host PRIMARY_KEY);
  inventory (add_host hostname (py "all"));;
  inventory (set_variable hostname (py "ansible_host") hostname);;
  gl ← pure (getitem host (py "group_list"));
  (if negb (is_none_list gl) then
     vals ← pure (iterate gl);
     for_each vals (λ val,
       g ← pure (_sanitize_group_name val);
       inventory (add_host hostname g))
   else mret tt);;
  en ← pure (getitem host (py "enabled"));
  inventory (set_variable hostname (py "enabled") en).

(** [sorted(raw_data['hosts'], key=lambda item: item[self.PRIMARY_KEY])] *)
Definition sorted_data (raw_data : value) : result (list value) :=
  hosts ← getitem raw_data (py "hosts");
  items ← iterate hosts;
  sorted items (λ item, getitem item PRIMARY_KEY).

(** [parse], from the two options it reads on, with an inventory that
    accepts every call. *)
Definition parse (cmdb_api_url cmdb_api_bearer_token : str) : Inventory unit :=
  raw_data ← pure (_load_inventory_data cmdb_api_url cmdb_api_bearer_token);
  pure (match validate raw_data with
        | Raise (ValidationError message) =>
            Raise (AnsibleError
                     (py "Unable to validate data, the original error is: " ++ message))
        | r => r
        end);;
  sorted_data ← pure (sorted_data raw_data);
  host_groups ← pure (collect_groups sorted_data);
  for_each (set_order host_groups) (λ group, inventory (add_group group));;
  for_each sorted_data register_host.

(** *** The run on an inventory that may raise *)

(** What the inventory does with a call, after the calls it has accepted:
    [None] when the call returns, the exception when it raises. The
    inventory is the host runtime's, and [parse] has no handler around its
    calls. *)
Variable refuses : list call → call → option exn.

(** A call on the inventory: recorded when it returns; when it raises, the
    exception goes on to the caller. *)
Definition inventory_call (c : call) : Inventory unit := λ log,
  match refuses log c with
  | None => (Ok tt, log ++ [c])
  | Some e => (Raise e, log)
  end.

(** Calls made one after the other, up to the first that raises. *)
Definition attempt (calls : list call) : Inventory unit :=
  for_each calls inventory_call.

(** The body of the loop that adds the hosts. *)
Definition register_host_with (host : value) : Inventory unit :=
  hostname ← pure (getitem host PRIMARY_KEY);
  inventory_call (add_host hostname (py "all"));;
  inventory_call (set_variable hostname (py "ansible_host") hostname);;
  gl ← pure (getitem host (py "group_list"));
  (if negb (is_none_list gl) then
     vals ← pure (iterate gl);
     for_each vals (λ val,
       g ← pure (_sanitize_group_name val);
       inventory_call (add_host hostname g))
   else mret tt);;
  en ← pure (getitem host (py "enabled"));
  inventory_call (set_variable hostname (py "enabled") en).

(** [parse], from the two options it reads on. *)
Definition parse_with (cmdb_api_url cmdb_api_bearer_token : str) : Inventory unit :=
  raw_data ← pure (_load_inventory_data cmdb_api_url cmdb_api_bearer_token);
  pure (match validate raw_data with
        | Raise (ValidationError message) =>
            Raise (AnsibleError
                     (py "Unable to validate data, the original error is: " ++ message))
        | r => r
        end);;
  sorted_data ← pure (sorted_data raw_data);
  host_groups ← pure (collect_groups sorted_data);
  for_each (set_order host_groups) (λ group, inventory_call (add_group group));;
  for_each sorted_data register_host_with.

(** *** The transformer and the sink contract, in the words of the
    specification

    These follow the specification, on its records; the theorems compare
    them with what [parse] does. *)

(** The placeholder [[null]]: no explicit groups. *)
Definition placeholder (r : RawHostRecord) : bool :=
  bool_decide (group_list r = [None]).

(** A group list that is the placeholder or holds names only. *)
Definition names_only (r : RawHostRecord) : bool :=
  placeholder r || forallb (λ g, bool_decide (is_Some g)) (group_list r).

(** Group memberships: the sanitized names of the names in the group list,
    none for the placeholder. *)
Definition spec_memberships (r : RawHostRecord) : list str :=
  if placeholder r then [] else sanitize <$> omap id (group_list r).

(** The calls of the sink contract for one registration record. *)
Definition spec_registration (r : RawHostRecord) : list call :=
  let hostname := PyStr (primary_address r) in
  [add_host hostname (py "all");
   set_variable hostname (py "ansible_host") hostname]
  ++ (add_host hostname <$> spec_memberships r)
  ++ [set_variable hostname (py "enabled") (PyBool (enabled r))].

(** Hosts in ascending order of [primary_address], ties in input order. *)
Definition spec_sort_hosts (hosts : list RawHostRecord) : list RawHostRecord :=
  stable_sort primary_address hosts.

(** [x] is not after [y] in the order of the keys. *)
Definition key_le {A} (key : A → str) (x y : A) : Prop :=
  str_leb (key x) (key y) = true.

(** *** Sanitization *)

Lemma in_class_ascii c : in_class c = true → is_ascii c = true.
Proof. unfold in_class, is_ascii. bool_to_prop. lia. Qed.

Lemma sanitize_char_alphabet c : in_result_alphabet (sanitize_char c) = true.
Proof.
  unfold sanitize_char, ascii_lower, in_result_alphabet; cbv zeta.
  destruct (in_class c) eqn:Hc; unfold in_class in Hc.
  - destruct (in_range "A" "Z" c) eqn:Hu;
      match goal with
      | |- context [?a =? ?b] => destruct (N.eqb_spec a b) as [He|He]
      end; bool_to_prop; lia.
  - destruct (in_range "A" "Z" (chr "_")) eqn:Hu;
      match goal with
      | |- context [?a =? ?b] => destruct (N.eqb_spec a b) as [He|He]
      end; bool_to_prop; lia.
Qed.

Lemma sanitize_char_fixed c :
  in_result_alphabet c = true → sanitize_char c = c.
Proof.
  unfold sanitize_char, ascii_lower, in_result_alphabet; cbv zeta. intros Hc.
  assert (in_class c = true) as -> by (unfold in_class; bool_to_prop; lia).
  assert (in_range "A" "Z" c = false) as -> by (bool_to_prop; lia).
  destruct (N.eqb_spec c (chr "-")) as [He|He]; [|done].
  bool_to_prop; lia.
Qed.

Lemma regex_sub_ascii name : forallb is_ascii (regex_sub name) = true.
Proof.
  induction name as [|c name IH]; [done|].
  cbn [regex_sub fmap list_fmap forallb] in *.
  fold (regex_sub name). rewrite IH, andb_true_r.
  destruct (in_class c) eqn:Hc; [by apply in_class_ascii | done].
Qed.

(** The Unicode tables are never consulted: the argument of [lower] is
    ASCII by then. *)
Lemma sanitize_pointwise name : sanitize name = sanitize_char <$> name.
Proof.
  unfold sanitize, lower. rewrite regex_sub_ascii.
  unfold replace_hyphen, regex_sub. by rewrite <- !list_fmap_compose.
Qed.

Lemma sanitize_alphabet name :
  forallb in_result_alphabet (sanitize name) = true.
Proof.
  rewrite sanitize_pointwise.
  induction name as [|c name IH]; [done|].
  cbn [fmap list_fmap forallb]. by rewrite sanitize_char_alphabet.
Qed.

Lemma sanitize_fixed s :
  forallb in_result_alphabet s = true → sanitize s = s.
Proof.
  rewrite sanitize_pointwise.
  induction s as [|c s IH]; [done|].
  cbn [fmap list_fmap forallb]. intros [Hc Hs]%andb_true_iff.
  by rewrite sanitize_char_fixed, IH.
Qed.

(** *** The order of [str] *)

Lemma str_ltb_irrefl a : str_ltb a a = false.
Proof.
  induction a as [|x a IH]; [done|]. simpl.
  by rewrite N.ltb_irrefl.
Qed.

Lemma str_ltb_trans a b c :
  str_ltb a b = true → str_ltb b c = true → str_ltb a c = true.
Proof.
  revert b c. induction a as [|x a IH]; intros [|y b] [|z c]; simpl; try done.
  destruct (N.ltb_spec x y), (N.ltb_spec y x), (N.ltb_spec y z),
    (N.ltb_spec z y), (N.ltb_spec x z), (N.ltb_spec z x);
    try done; try lia.
  apply IH.
Qed.

Lemma str_ltb_asym a b : str_ltb a b = true → str_ltb b a = false.
Proof.
  intros Hab. destruct (str_ltb b a) eqn:Hba; [|done].
  by rewrite <- (str_ltb_irrefl a), (str_ltb_trans a b a).
Qed.

(** Neither below the other: the same string. *)
Lemma str_ltb_total a b :
  str_ltb a b = false → str_ltb b a = false → a = b.
Proof.
  revert b. induction a as [|x a IH]; intros [|y b]; simpl; try done.
  destruct (N.ltb_spec x y), (N.ltb_spec y x); try done; try lia.
  intros. f_equal; [lia | by apply IH].
Qed.

Lemma str_leb_refl a : str_leb a a = true.
Proof. unfold str_leb. by rewrite str_ltb_irrefl. Qed.

Lemma str_leb_trans a b c :
  str_leb a b = true → str_leb b c = true → str_leb a c = true.
Proof.
  unfold str_leb. rewrite !negb_true_iff. intros Hba Hcb.
  destruct (str_ltb c a) eqn:Hca; [|done].
  destruct (str_ltb a b) eqn:Hab.
  - by rewrite (str_ltb_trans c a b) in Hcb.
  - rewrite (str_ltb_total a b) in Hca by done. congruence.
Qed.

Lemma str_leb_antisym a b :
  str_leb a b = true → str_leb b a = true → a = b.
Proof.
  unfold str_leb. rewrite !negb_true_iff. intros. by apply str_ltb_total.
Qed.

(** *** The stable sort *)

Section Sort.
Context {A : Type} (key : A → str).

Lemma insert_by_Permutation x l : insert_by key x l ≡ₚ x :: l.
Proof.
  induction l as [|y l IH]; simpl; [done|].
  destruct (str_ltb (key y) (key x)); [|done].
  rewrite IH. apply Permutation_swap.
Qed.

Lemma stable_sort_Permutation l : stable_sort key l ≡ₚ l.
Proof.
  induction l as [|x l IH]; simpl; [done|].
  by rewrite insert_by_Permutation, IH.
Qed.

Lemma insert_by_sorted x l :
  StronglySorted (key_le key) l →
  StronglySorted (key_le key) (insert_by key x l).
Proof.
  induction 1 as [|y l Hl IH Hy]; simpl.
  { repeat constructor. }
  destruct (str_ltb (key y) (key x)) eqn:Hyx.
  - constructor; [done|].
    rewrite insert_by_Permutation. constructor; [|done].
    unfold key_le, str_leb. by rewrite (str_ltb_asym _ _ Hyx).
  - assert (key_le key x y) as Hxy by (unfold key_le, str_leb; by rewrite Hyx).
    constructor; [by constructor|].
    constructor; [done|].
    eapply Forall_impl; [exact Hy|].
    intros z Hz. by eapply str_leb_trans.
Qed.

Lemma stable_sort_sorted l : StronglySorted (key_le key) (stable_sort key l).
Proof.
  induction l as [|x l IH]; simpl; [constructor|].
  by apply insert_by_sorted.
Qed.

(** Items that share a key keep their order: the sort is stable. *)
Lemma insert_by_filter k x l :
  StronglySorted (key_le key) l →
  filter (λ y, key y = k) (insert_by key x l)
  = filter (λ y, key y = k) (x :: l).
Proof.
  induction 1 as [|y l Hl IH Hy]; simpl; [done|].
  destruct (str_ltb (key y) (key x)) eqn:Hyx; [|done].
  rewrite !filter_cons, IH, !filter_cons.
  destruct (decide (key y = k)) as [<-|]; [|done].
  destruct (decide (key x = key y)) as [Heq|]; [|done].
  by rewrite Heq, str_ltb_irrefl in Hyx.
Qed.

Lemma stable_sort_filter k l :
  filter (λ y, key y = k) (stable_sort key l) = filter (λ y, key y = k) l.
Proof.
  induction l as [|x l IH]; simpl; [done|].
  rewrite insert_by_filter by apply stable_sort_sorted.
  by rewrite !filter_cons, IH.
Qed.

(** A sorted list is determined by what it holds under each key: any
    stable sort gives the list [stable_sort] gives. *)
Lemma sorted_stable_unique l1 l2 :
  StronglySorted (key_le key) l1 →
  StronglySorted (key_le key) l2 →
  (∀ k, filter (λ y, key y = k) l1 = filter (λ y, key y = k) l2) →
  l1 = l2.
Proof.
  intros Hl1. revert l2.
  induction Hl1 as [|x l1 Hl1 IH Hx]; intros l2 Hl2 Hf.
  - destruct l2 as [|y l2]; [done|].
    specialize (Hf (key y)). rewrite filter_cons_True in Hf by done. done.
  - destruct Hl2 as [|y l2 Hl2 Hy].
    { specialize (Hf (key x)). rewrite filter_cons_True in Hf by done. done. }
    assert (key x = key y) as Hxy.
    { destruct (decide (key x = key y)) as [|Hne]; [done|].
      apply str_leb_antisym.
      - pose proof (Hf (key y)) as Hfy.
        rewrite filter_cons_False, filter_cons_True in Hfy by done.
        assert (y ∈ filter (λ z, key z = key y) l1) as Hin
          by (rewrite Hfy; left).
        apply list_elem_of_filter in Hin as [_ Hin].
        by apply (proj1 (Forall_forall _ _) Hx).
      - pose proof (Hf (key x)) as Hfx.
        rewrite filter_cons_True, filter_cons_False in Hfx by done.
        assert (x ∈ filter (λ z, key z = key x) l2) as Hin
          by (rewrite <- Hfx; left).
        apply list_elem_of_filter in Hin as [_ Hin].
        by apply (proj1 (Forall_forall _ _) Hy). }
    pose proof (Hf (key x)) as Hfx.
    rewrite filter_cons_True, filter_cons_True in Hfx by done.
    injection Hfx as -> Hfx. f_equal. apply IH; [done|].
    intros k. destruct (decide (key y = k)) as [<-|Hne]; [done|].
    specialize (Hf k). by rewrite !filter_cons_False in Hf.
Qed.

Corollary stable_sort_unique l l' :
  StronglySorted (key_le key) l' →
  (∀ k, filter (λ y, key y = k) l' = filter (λ y, key y = k) l) →
  l' = stable_sort key l.
Proof.
  intros Hs Hf. apply sorted_stable_unique; [done|apply stable_sort_sorted|].
  intros k. by rewrite Hf, stable_sort_filter.
Qed.
End Sort.

Lemma stable_sort_fmap {A B} (key : B → str) (f : A → B) l :
  stable_sort key (f <$> l) = f <$> stable_sort (key ∘ f) l.
Proof.
  unfold stable_sort.
  induction l as [|x l IH]; [done|].
  rewrite fmap_cons. cbn [foldr]. rewrite IH.
  generalize (foldr (insert_by (key ∘ f)) [] l) as m.
  induction m as [|y m IHm]; [done|].
  rewrite fmap_cons. cbn [insert_by compose].
  destruct (str_ltb (key (f y)) (key (f x))); by rewrite ?fmap_cons, ?IHm.
Qed.

Lemma insert_by_Forall2 {A B} (R : A → B → Prop) (k1 : A → str) (k2 : B → str) x y l1 l2 :
  (∀ a b, R a b → k1 a = k2 b) →
  R x y → Forall2 R l1 l2 →
  Forall2 R (insert_by k1 x l1) (insert_by k2 y l2).
Proof.
  intros Hk Hxy. induction 1 as [|a b l1 l2 Hab Hl IH]; simpl.
  { by repeat constructor. }
  rewrite (Hk _ _ Hab), (Hk _ _ Hxy).
  destruct (str_ltb (k2 b) (k2 y)); by repeat constructor.
Qed.

Lemma stable_sort_Forall2 {A B} (R : A → B → Prop) (k1 : A → str) (k2 : B → str) l1 l2 :
  (∀ a b, R a b → k1 a = k2 b) →
  Forall2 R l1 l2 →
  Forall2 R (stable_sort k1 l1) (stable_sort k2 l2).
Proof.
  intros Hk. induction 1; simpl; [constructor|].
  by apply insert_by_Forall2.
Qed.

(** *** Results and loops *)

Lemma Forall2_elem_l {A B} (R : A → B → Prop) l k x :
  Forall2 R l k → x ∈ l → ∃ y, y ∈ k ∧ R x y.
Proof.
  induction 1 as [|a b l k Hab Hlk IH]; intros Hin.
  { by apply elem_of_nil in Hin. }
  apply elem_of_cons in Hin as [->|Hin].
  - exists b. split; [left | done].
  - destruct (IH Hin) as (y & Hy & Hxy). exists y. split; [by right | done].
Qed.

Lemma result_bind_Ok {A B} (f : A → result B) a : Ok a ≫= f = f a.
Proof. done. Qed.

Lemma pure_bind_Ok {A B} (f : A → Inventory B) a log :
  (pure (Ok a) ≫= f) log = f a log.
Proof. done. Qed.

Lemma ret_bind {A B} (f : A → Inventory B) a log :
  (mret a ≫= f) log = f a log.
Proof. done. Qed.

Lemma pure_bind_Raise {A B} (f : A → Inventory B) e log :
  (pure (Raise e) ≫= f) log = (Raise e, log).
Proof. done. Qed.

Lemma inventory_bind_call {B} (f : unit → Inventory B) c log :
  (inventory c ≫= f) log = f tt (log ++ [c]).
Proof. done. Qed.

Lemma inventory_bind_Ok {A B} (m : Inventory A) (f : A → Inventory B) a log log' :
  m log = (Ok a, log') → (m ≫= f) log = f a log'.
Proof. intros Hm. unfold mbind, inventory_bind. by rewrite Hm. Qed.

Lemma inventory_bind_Raise {A B} (m : Inventory A) (f : A → Inventory B) e log log' :
  m log = (Raise e, log') → (m ≫= f) log = (Raise e, log').
Proof. intros Hm. unfold mbind, inventory_bind. by rewrite Hm. Qed.

Lemma mapM_result_Ok {A B} (f : A → result B) (g : A → B) l :
  Forall (λ x, f x = Ok (g x)) l → mapM f l = Ok (g <$> l).
Proof.
  induction 1 as [|x l Hx Hl IH]; [done|].
  cbn [mapM]. rewrite Hx. cbn. by rewrite IH.
Qed.

Lemma for_each_calls {A B} (g : B → list call) (body : A → Inventory unit) xs ys :
  Forall2 (λ x y, ∀ log, body x log = (Ok tt, log ++ g y)) xs ys →
  ∀ log, for_each xs body log = (Ok tt, log ++ (ys ≫= g)).
Proof.
  induction 1 as [|x y xs ys Hx Hxs IH]; intros log.
  { cbn. by rewrite app_nil_r. }
  cbn [for_each]. unfold mbind at 1, inventory_bind.
  by rewrite Hx, IH, bind_cons, app_assoc.
Qed.

Lemma for_each_inventory {A} (f : A → call) xs log :
  for_each xs (λ x, inventory (f x)) log = (Ok tt, log ++ (f <$> xs)).
Proof.
  revert log. induction xs as [|x xs IH]; intros log; cbn [for_each].
  - cbn. by rewrite app_nil_r.
  - unfold mbind at 1, inventory_bind, inventory at 1.
    by rewrite IH, fmap_cons, <- app_assoc.
Qed.

(** *** Hosts that the schema accepts *)

Lemma decode_host_fields host r :
  decode_host host = Some r →
  ∃ gl,
    getitem host PRIMARY_KEY = Ok (PyStr (primary_address r))
    ∧ getitem host (py "group_list") = Ok (PyList gl)
    ∧ Forall2 (λ v g, decode_group v = Some g) gl (group_list r)
    ∧ getitem host (py "enabled") = Ok (PyBool (enabled r)).
Proof.
  unfold decode_host, getitem. intros Hd.
  destruct host as [| | | |?|items]; try done.
  destruct (dict_lookup PRIMARY_KEY items) as [[| | |a| |]|]; try done.
  destruct (dict_lookup (py "group_list") items) as [[| | | |gl|]|]; try done.
  destruct (dict_lookup (py "enabled") items) as [[|e| | | |]|]; try done.
  destruct (mapM decode_group gl) as [groups|] eqn:Hg; simplify_eq/=.
  exists gl. by apply mapM_Some in Hg.
Qed.

Lemma decode_host_key host r :
  decode_host host = Some r → key_of host = primary_address r.
Proof.
  intros (gl & Hk & _)%decode_host_fields. unfold key_of. by rewrite Hk.
Qed.

Lemma decode_group_none_list gl groups :
  Forall2 (λ v g, decode_group v = Some g) gl groups →
  is_none_list (PyList gl) = bool_decide (groups = [None]).
Proof.
  intros Hgl. destruct Hgl as [|v g gl groups Hv Hgl]; [done|].
  destruct Hgl as [|v' g' gl groups Hv' Hgl].
  - destruct v; simplify_eq/=; done.
  - destruct v; simplify_eq/=; done.
Qed.

Lemma decode_group_names gl groups :
  Forall2 (λ v g, decode_group v = Some g) gl groups →
  forallb (λ g, bool_decide (is_Some g)) groups = true →
  gl = PyStr <$> omap id groups.
Proof.
  induction 1 as [|v g gl groups Hv Hgl IH]; [done|].
  cbn [forallb]. intros [Hg Hs]%andb_true_iff.
  apply bool_decide_eq_true in Hg as [s ->].
  destruct v; simplify_eq/=. by rewrite <- IH.
Qed.

(** *** The two loops on hosts that the schema accepts *)

Lemma append_sanitized_names names acc :
  for_acc (PyStr <$> names) append_sanitized acc = Ok (acc ++ (sanitize <$> names)).
Proof.
  revert acc. induction names as [|s names IH]; intros acc.
  { cbn. by rewrite app_nil_r. }
  rewrite !fmap_cons. cbn. by rewrite IH, <- app_assoc.
Qed.

Lemma append_sanitized_null gl groups acc :
  Forall2 (λ v g, decode_group v = Some g) gl groups →
  forallb (λ g, bool_decide (is_Some g)) groups = false →
  for_acc gl append_sanitized acc = Raise TypeError.
Proof.
  intros Hgl. revert acc.
  induction Hgl as [|v g gl groups Hv Hgl IH]; intros acc; [done|].
  cbn [forallb]. intros Hnull.
  destruct v; simplify_eq/=; [done|]. by apply IH.
Qed.

Lemma add_groups_of_names host r acc :
  decode_host host = Some r → names_only r = true →
  add_groups_of host acc = Ok (acc ++ spec_memberships r).
Proof.
  intros (gl & _ & Hgl & Hd & _)%decode_host_fields Hn.
  unfold add_groups_of, spec_memberships, names_only, placeholder in *.
  rewrite Hgl. cbn [mbind result_bind]. rewrite (decode_group_none_list _ _ Hd).
  destruct (bool_decide (group_list r = [None])); cbn.
  { by rewrite app_nil_r. }
  rewrite (decode_group_names _ _ Hd Hn). apply append_sanitized_names.
Qed.

Lemma add_groups_of_null host r acc :
  decode_host host = Some r → names_only r = false →
  add_groups_of host acc = Raise TypeError.
Proof.
  intros (gl & _ & Hgl & Hd & _)%decode_host_fields Hn.
  unfold add_groups_of, names_only, placeholder in *.
  rewrite Hgl. cbn [mbind result_bind]. rewrite (decode_group_none_list _ _ Hd).
  apply orb_false_iff in Hn as [-> Hn]. cbn.
  by eapply append_sanitized_null.
Qed.

Lemma collect_groups_names hosts rs acc :
  Forall2 (λ host r, decode_host host = Some r) hosts rs →
  forallb names_only rs = true →
  for_acc hosts add_groups_of acc = Ok (acc ++ (rs ≫= spec_memberships)).
Proof.
  intros Hd. revert acc.
  induction Hd as [|host r hosts rs Hr Hd IH]; intros acc.
  { cbn. by rewrite app_nil_r. }
  cbn [forallb]. intros [Hn Hns]%andb_true_iff.
  cbn [for_acc]. rewrite (add_groups_of_names _ _ _ Hr Hn), result_bind_Ok.
  by rewrite IH, bind_cons, app_assoc.
Qed.

Lemma collect_groups_null hosts rs acc :
  Forall2 (λ host r, decode_host host = Some r) hosts rs →
  forallb names_only rs = false →
  for_acc hosts add_groups_of acc = Raise TypeError.
Proof.
  intros Hd. revert acc.
  induction Hd as [|host r hosts rs Hr Hd IH]; intros acc; [done|].
  cbn [forallb for_acc]. intros Hn.
  destruct (names_only r) eqn:Hr'.
  - rewrite (add_groups_of_names _ _ _ Hr Hr'), result_bind_Ok. by apply IH.
  - by rewrite (add_groups_of_null _ _ _ Hr Hr').
Qed.

Lemma add_to_groups hostname names log :
  for_each (PyStr <$> names)
    (λ val, g ← pure (_sanitize_group_name val); inventory (add_host hostname g)) log
  = (Ok tt, log ++ (add_host hostname <$> (sanitize <$> names))).
Proof.
  revert log. induction names as [|s names IH]; intros log.
  { cbn. by rewrite app_nil_r. }
  rewrite !fmap_cons. cbn [for_each].
  erewrite inventory_bind_Ok; [|reflexivity].
  by rewrite IH, <- app_assoc.
Qed.

Lemma register_host_calls host r log :
  decode_host host = Some r → names_only r = true →
  register_host host log = (Ok tt, log ++ spec_registration r).
Proof.
  intros (gl & Hk & Hgl & Hd & He)%decode_host_fields Hn.
  unfold register_host, spec_registration, spec_memberships, names_only, placeholder in *.
  rewrite Hk, Hgl, He, pure_bind_Ok, !inventory_bind_call, pure_bind_Ok.
  rewrite (decode_group_none_list _ _ Hd).
  destruct (bool_decide (group_list r = [None])); cbn [negb].
  { rewrite ret_bind, pure_bind_Ok. unfold inventory.
    by rewrite <- !app_assoc. }
  rewrite (decode_group_names _ _ Hd Hn). cbn [iterate].
  erewrite inventory_bind_Ok;
    [|by rewrite pure_bind_Ok; apply add_to_groups].
  rewrite pure_bind_Ok. unfold inventory. by rewrite <- !app_assoc.
Qed.

(** *** [parse], case by case *)

Lemma decode_payload_hosts payload rs :
  decode_payload payload = Some rs →
  ∃ hosts,
    getitem payload (py "hosts") = Ok (PyList hosts)
    ∧ Forall2 (λ host r, decode_host host = Some r) hosts rs.
Proof.
  unfold decode_payload, getitem.
  destruct payload as [| | | |?|items]; try done.
  destruct (dict_lookup (py "hosts") items) as [[| | | |hosts|]|]; try done.
  intros Hd%mapM_Some. by exists hosts.
Qed.

Lemma sorted_decoded hosts rs :
  Forall2 (λ host r, decode_host host = Some r) hosts rs →
  sorted hosts (λ item, getitem item PRIMARY_KEY) = Ok (stable_sort key_of hosts).
Proof.
  intros Hd. unfold sorted.
  rewrite (mapM_result_Ok _ (λ host, (key_of host, host))), result_bind_Ok.
  - unfold mret, result_ret. f_equal.
    rewrite stable_sort_fmap, <- list_fmap_compose. apply list_fmap_id.
  - apply Forall_forall. intros host Hin.
    apply (Forall2_elem_l _ _ _ _ Hd) in Hin as (r & _ & Hr).
    apply decode_host_fields in Hr as (gl & Hk & _).
    unfold key_of. by rewrite Hk.
Qed.

Lemma sorted_data_decoded payload rs :
  decode_payload payload = Some rs →
  ∃ hosts,
    getitem payload (py "hosts") = Ok (PyList hosts)
    ∧ Forall2 (λ host r, decode_host host = Some r) hosts rs
    ∧ sorted_data payload = Ok (stable_sort key_of hosts)
    ∧ Forall2 (λ host r, decode_host host = Some r)
        (stable_sort key_of hosts) (spec_sort_hosts rs).
Proof.
  intros (hosts & Hh & Hd)%decode_payload_hosts. exists hosts.
  split_and!; [done..| |].
  - unfold sorted_data. rewrite Hh, result_bind_Ok. cbn [iterate].
    rewrite result_bind_Ok. by eapply sorted_decoded.
  - apply stable_sort_Forall2; [|done]. apply decode_host_key.
Qed.

Lemma forallb_Permutation {A} (f : A → bool) l1 l2 :
  l1 ≡ₚ l2 → forallb f l1 = forallb f l2.
Proof.
  induction 1 as [|x l1 l2 _ IH|x y l|l1 l2 l3 _ IH1 _ IH2]; cbn [forallb].
  - done.
  - by rewrite IH.
  - by rewrite !andb_assoc, (andb_comm (f y)).
  - by rewrite IH1.
Qed.

Lemma load_response_200 url token data :
  requests_get url (headers token) = response 200 (inr data) →
  _load_inventory_data url token = Ok data.
Proof. intros Hnet. unfold _load_inventory_data, try_load. by rewrite Hnet. Qed.

Lemma load_failed url token text :
  try_load url token = inl text →
  _load_inventory_data url token
  = Raise (AnsibleError (py "An error occurred, the original exception is: " ++ text)).
Proof. intros Ht. unfold _load_inventory_data. by rewrite Ht. Qed.

Lemma parse_load_failed url token text log :
  try_load url token = inl text →
  parse url token log
  = (Raise (AnsibleError (py "An error occurred, the original exception is: " ++ text)),
     log).
Proof.
  intros Ht. unfold parse. by rewrite (load_failed _ _ _ Ht), pure_bind_Raise.
Qed.

Lemma parse_rejected url token data log :
  _load_inventory_data url token = Ok data →
  conforms data = false →
  parse url token log
  = (Raise (AnsibleError (py "Unable to validate data, the original error is: "
                          ++ validation_message data)),
     log).
Proof.
  intros Hl Hc. unfold parse, validate.
  by rewrite Hl, pure_bind_Ok, Hc, pure_bind_Raise.
Qed.

Lemma parse_accepted url token data rs log :
  _load_inventory_data url token = Ok data →
  decode_payload data = Some rs →
  parse url token log
  = if forallb names_only rs
    then (Ok tt,
          log ++ (add_group <$> set_order (spec_sort_hosts rs ≫= spec_memberships))
              ++ (spec_sort_hosts rs ≫= spec_registration))
    else (Raise TypeError, log).
Proof.
  intros Hl Hrs.
  assert (conforms data = true) as Hc.
  { unfold conforms. apply bool_decide_eq_true. by rewrite Hrs. }
  destruct (sorted_data_decoded _ _ Hrs) as (hosts & _ & _ & Hs & Hd).
  unfold parse, validate.
  rewrite Hl, pure_bind_Ok, Hc, pure_bind_Ok, Hs, pure_bind_Ok.
  unfold collect_groups.
  rewrite (forallb_Permutation _ rs (spec_sort_hosts rs))
    by (symmetry; apply stable_sort_Permutation).
  destruct (forallb names_only (spec_sort_hosts rs)) eqn:Hn.
  - rewrite (collect_groups_names _ _ _ Hd Hn), pure_bind_Ok, app_nil_l.
    erewrite inventory_bind_Ok; [|apply for_each_inventory]. cbv beta.
    rewrite (for_each_calls spec_registration _ _ (spec_sort_hosts rs)), app_assoc; [done|].
    clear Hs. induction Hd as [|host r hosts' rs' Hr Hd IH]; [constructor|].
    cbn [forallb] in Hn. apply andb_true_iff in Hn as [Hn Hns].
    constructor; [|by apply IH].
    intros log'. by apply register_host_calls.
  - by rewrite (collect_groups_null _ _ _ Hd Hn), pure_bind_Raise.
Qed.

(** *** What the calls of a run say *)

Lemma omap_add_hosts {B} (sel : call → option B) hostname groups :
  (∀ g, sel (add_host hostname g) = None) →
  omap sel (add_host hostname <$> groups) = [].
Proof.
  intros Hsel. induction groups as [|g groups IH]; [done|].
  rewrite fmap_cons. cbn [omap list_omap]. rewrite Hsel. apply IH.
Qed.

Lemma omap_add_groups {B} (sel : call → option B) groups :
  (∀ g, sel (add_group g) = None) →
  omap sel (add_group <$> groups) = [].
Proof.
  intros Hsel. induction groups as [|g groups IH]; [done|].
  rewrite fmap_cons. cbn [omap list_omap]. rewrite Hsel. apply IH.
Qed.

Lemma registered_app log1 log2 :
  registered (log1 ++ log2) = registered log1 ++ registered log2.
Proof. apply omap_app. Qed.

Lemma registered_registration r :
  registered (spec_registration r)
  = [(PyStr (primary_address r), PyStr (primary_address r))].
Proof.
  unfold registered, spec_registration. cbv zeta.
  rewrite !omap_app, omap_add_hosts by done.
  cbn [omap list_omap named_host].
  rewrite bool_decide_true by done.
  rewrite bool_decide_false by (by vm_compute). done.
Qed.

Lemma registered_hosts rs :
  registered (rs ≫= spec_registration)
  = (λ r, (PyStr (primary_address r), PyStr (primary_address r))) <$> rs.
Proof.
  induction rs as [|r rs IH]; [done|].
  by rewrite bind_cons, fmap_cons, registered_app, IH, registered_registration.
Qed.

Lemma assigned_registration a r :
  omap (assigned a (py "enabled")) (spec_registration r)
  = if bool_decide (primary_address r = a) then [PyBool (enabled r)] else [].
Proof.
  unfold spec_registration. cbv zeta.
  rewrite !omap_app, omap_add_hosts by done.
  cbn [omap list_omap assigned].
  rewrite (bool_decide_false (_ ∧ py "ansible_host" = _))
    by (intros [_ ?]; by vm_compute in *).
  destruct (decide (primary_address r = a)) as [Ha|Ha].
  - by rewrite !bool_decide_true by done.
  - rewrite !bool_decide_false; [done..|]. by intros [? _].
Qed.

Lemma assigned_hosts a rs :
  omap (assigned a (py "enabled")) (rs ≫= spec_registration)
  = (λ r, PyBool (enabled r)) <$> filter (λ r, primary_address r = a) rs.
Proof.
  induction rs as [|r rs IH]; [done|].
  rewrite bind_cons, omap_app, IH, filter_cons.
  rewrite (assigned_registration a).
  by destruct (decide (primary_address r = a));
    [rewrite bool_decide_true by done | rewrite bool_decide_false by done].
Qed.

Lemma Forall2_fmap_eq {A B C} (f : A → C) (g : B → C) l k :
  Forall2 (λ x y, f x = g y) l k → f <$> l = g <$> k.
Proof. induction 1 as [|x y l k Hxy _ IH]; [done|]. by rewrite !fmap_cons, Hxy, IH. Qed.

Lemma conforms_decode payload :
  conforms payload = true ↔ ∃ rs, decode_payload payload = Some rs.
Proof. unfold conforms. by rewrite bool_decide_eq_true. Qed.

Lemma created_hosts rs : groups_created (rs ≫= spec_registration) = [].
Proof.
  induction rs as [|r rs IH]; [done|].
  rewrite bind_cons. unfold groups_created in *. rewrite omap_app, IH.
  unfold spec_registration. cbv zeta. by rewrite !omap_app, omap_add_hosts.
Qed.

Lemma variable_run groups rs a :
  variable ((add_group <$> groups) ++ (rs ≫= spec_registration)) a (py "enabled")
  = (λ r, PyBool (enabled r)) <$> last (filter (λ r, primary_address r = a) rs).
Proof.
  unfold variable.
  by rewrite omap_app, omap_add_groups, app_nil_l, assigned_hosts, fmap_last.
Qed.

Lemma set_order_singleton g : set_order [g] = [g].
Proof using Type*.
  pose proof (set_order_NoDup [g]) as Hnd.
  pose proof (set_order_elem [g]) as Hel.
  destruct (set_order [g]) as [|x [|y l]].
  - exfalso. eapply elem_of_nil, (Hel g). left.
  - f_equal. apply list_elem_of_singleton, Hel. left.
  - assert (x = g) as -> by (apply list_elem_of_singleton, Hel; left).
    assert (y = g) as -> by (apply list_elem_of_singleton, Hel; right; left).
    apply NoDup_cons in Hnd as [Hnd _]. destruct Hnd. left.
Qed.

Lemma for_acc_app {A S} (body : A → S → result S) xs ys acc :
  for_acc (xs ++ ys) body acc = for_acc xs body acc ≫= for_acc ys body.
Proof.
  revert acc. induction xs as [|x xs IH]; intros acc; [done|].
  cbn [app for_acc]. destruct (body x acc) as [acc'|e]; [|done].
  exact (IH acc').
Qed.

Lemma is_none_list_spec gl : is_none_list (PyList gl) = true ↔ gl = [PyNone].
Proof.
  split; [|by intros ->].
  destruct gl as [|[] [|]]; by cbn.
Qed.

Lemma append_sanitized_not_str gl acc :
  Exists (λ v, ∀ s, v ≠ PyStr s) gl →
  for_acc gl append_sanitized acc = Raise TypeError.
Proof.
  intros Hex. revert acc.
  induction Hex as [v gl Hv|v gl Hex IH]; intros acc; cbn [for_acc].
  - destruct v; try done. by destruct (Hv s).
  - destruct v; try done. exact (IH _).
Qed.

(** *** More on sanitization *)

Lemma sanitize_char_cases c :
  sanitize_char c
  = if in_range "A" "Z" c then c + 32
    else if in_range "a" "z" c || in_range "0" "9" c then c
    else chr "_".
Proof.
  unfold sanitize_char, ascii_lower, in_class; cbv zeta.
  destruct (in_range "A" "Z" c) eqn:Hu.
  { cbn [orb]. rewrite Hu.
    destruct (N.eqb_spec (c + 32) (chr "-")); [bool_to_prop; lia|done]. }
  destruct (in_range "a" "z" c) eqn:Hl.
  { cbn [orb]. rewrite Hu.
    destruct (N.eqb_spec c (chr "-")); [bool_to_prop; lia|done]. }
  destruct (in_range "0" "9" c) eqn:Hd.
  { cbn [orb]. rewrite Hu.
    destruct (N.eqb_spec c (chr "-")); [bool_to_prop; lia|done]. }
  cbn [orb].
  destruct (N.eqb_spec c (chr "_")) as [?|?]; [by subst|].
  destruct (N.eqb_spec c (chr "-")) as [?|?]; [by subst|done].
Qed.

Lemma sanitize_char_lower c : sanitize_char (ascii_lower c) = sanitize_char c.
Proof.
  rewrite !sanitize_char_cases. unfold ascii_lower.
  destruct (in_range "A" "Z" c) eqn:Hu; [|by rewrite Hu].
  assert (in_range "A" "Z" (c + 32) = false) as -> by (bool_to_prop; lia).
  assert (in_range "a" "z" (c + 32) = true) as -> by (bool_to_prop; lia).
  done.
Qed.

Lemma sanitize_char_hyphen c :
  sanitize_char (if c =? chr "-" then chr "_" else c) = sanitize_char c.
Proof. destruct (N.eqb_spec c (chr "-")) as [->|?]; done. Qed.

Lemma sanitize_char_class c :
  sanitize_char (if in_class c then c else chr "_") = sanitize_char c.
Proof.
  destruct (in_class c) eqn:Hc; [done|].
  rewrite (sanitize_char_cases c). unfold in_class in Hc.
  assert (in_range "A" "Z" c = false) as -> by (bool_to_prop; tauto).
  assert (in_range "a" "z" c || in_range "0" "9" c = false) as ->
    by (bool_to_prop; tauto).
  done.
Qed.

(** *** Runs that return, runs that raise *)

Lemma set_order_nil : set_order [] = [].
Proof using Type*.
  pose proof (set_order_elem []) as Hel.
  destruct (set_order []) as [|x l]; [done|].
  exfalso. eapply elem_of_nil, (Hel x). left.
Qed.

Lemma parse_cases url token log :
  (∃ text,
     try_load url token = inl text
     ∧ parse url token log
       = (Raise (AnsibleError (py "An error occurred, the original exception is: "
                               ++ text)),
          log))
  ∨ (∃ data,
       _load_inventory_data url token = Ok data
       ∧ conforms data = false
       ∧ parse url token log
         = (Raise (AnsibleError (py "Unable to validate data, the original error is: "
                                 ++ validation_message data)),
            log))
  ∨ (∃ data rs,
       _load_inventory_data url token = Ok data
       ∧ decode_payload data = Some rs
       ∧ forallb names_only rs = false
       ∧ parse url token log = (Raise TypeError, log))
  ∨ (∃ data rs,
       _load_inventory_data url token = Ok data
       ∧ decode_payload data = Some rs
       ∧ forallb names_only rs = true
       ∧ parse url token log
         = (Ok tt,
            log ++ (add_group <$> set_order (spec_sort_hosts rs ≫= spec_memberships))
                ++ (spec_sort_hosts rs ≫= spec_registration))).
Proof.
  destruct (try_load url token) as [text|data] eqn:Ht.
  { left. exists text. split; [done|]. by apply parse_load_failed. }
  assert (_load_inventory_data url token = Ok data) as Hl
    by (unfold _load_inventory_data; by rewrite Ht).
  right. destruct (conforms data) eqn:Hc.
  - right. apply conforms_decode in Hc as [rs Hrs].
    pose proof (parse_accepted _ _ _ _ log Hl Hrs) as Hp.
    destruct (forallb names_only rs) eqn:Hn; [right|left]; by exists data, rs.
  - left. exists data. split_and!; [done..|]. by apply parse_rejected.
Qed.

(** *** Hosts under distinct keys, and the groups of a run *)

Lemma filter_key_unique {A} (key : A → str) k l :
  NoDup (key <$> l) →
  filter (λ y, key y = k) l = [] ∨ ∃ x, filter (λ y, key y = k) l = [x].
Proof.
  induction l as [|x l IH]; [by left|].
  rewrite fmap_cons, NoDup_cons, filter_cons. intros [Hx Hl].
  destruct (decide (key x = k)) as [<-|Hne]; [|by apply IH].
  right. exists x. f_equal.
  destruct (filter (λ y, key y = key x) l) as [|y m] eqn:Hf; [done|].
  assert (y ∈ filter (λ y, key y = key x) l) as Hy by (rewrite Hf; left).
  apply list_elem_of_filter in Hy as [Hk Hy].
  destruct Hx. rewrite <- Hk. by apply list_elem_of_fmap_2.
Qed.

Lemma filter_key_Permutation {A} (key : A → str) k l1 l2 :
  NoDup (key <$> l1) → l1 ≡ₚ l2 →
  filter (λ y, key y = k) l1 = filter (λ y, key y = k) l2.
Proof.
  intros Hnd Hp.
  assert (filter (λ y, key y = k) l1 ≡ₚ filter (λ y, key y = k) l2) as Hf
    by (by rewrite Hp).
  destruct (filter_key_unique key k l1 Hnd) as [Hnil|[x Hx]].
  - rewrite Hnil in *. by apply Permutation_nil_l.
  - rewrite Hx in *. by apply Permutation_singleton_l.
Qed.

Lemma stable_sort_determined {A} (key : A → str) l1 l2 :
  (∀ k, filter (λ y, key y = k) l1 = filter (λ y, key y = k) l2) →
  stable_sort key l1 = stable_sort key l2.
Proof.
  intros Hf. apply stable_sort_unique; [apply stable_sort_sorted|].
  intros k. by rewrite stable_sort_filter.
Qed.

Lemma created_groups groups : groups_created (add_group <$> groups) = groups.
Proof.
  induction groups as [|g groups IH]; [done|].
  rewrite fmap_cons. unfold groups_created in *. cbn [omap list_omap created_group].
  by rewrite IH.
Qed.

Lemma created_run groups rs :
  groups_created ((add_group <$> groups) ++ (rs ≫= spec_registration)) = groups.
Proof.
  pose proof (created_groups groups) as Hg. pose proof (created_hosts rs) as Hh.
  unfold groups_created in *. by rewrite omap_app, Hg, Hh, app_nil_r.
Qed.

Lemma joined_add_hosts a hostname groups :
  omap (joined_group a) (add_host (PyStr hostname) <$> groups)
  = if bool_decide (hostname = a) then groups else [].
Proof.
  induction groups as [|g groups IH]; [by destruct (bool_decide _)|].
  rewrite fmap_cons. cbn [omap list_omap joined_group]. rewrite IH.
  by destruct (bool_decide (hostname = a)).
Qed.

Lemma joined_registration a r :
  omap (joined_group a) (spec_registration r)
  = if bool_decide (primary_address r = a)
    then py "all" :: spec_memberships r
    else [].
Proof.
  unfold spec_registration. cbv zeta.
  rewrite !omap_app, joined_add_hosts.
  cbn [omap list_omap joined_group].
  destruct (bool_decide (primary_address r = a)); [|done].
  by rewrite app_nil_r.
Qed.

Lemma joined_hosts a rs :
  groups_of (rs ≫= spec_registration) a
  = filter (λ r, primary_address r = a) rs ≫= (λ r, py "all" :: spec_memberships r).
Proof.
  unfold groups_of. induction rs as [|r rs IH]; [done|].
  rewrite bind_cons, omap_app, IH, joined_registration, filter_cons.
  destruct (decide (primary_address r = a)).
  - by rewrite bool_decide_true, bind_cons by done.
  - by rewrite bool_decide_false by done.
Qed.

Lemma joined_run groups rs a :
  groups_of ((add_group <$> groups) ++ (rs ≫= spec_registration)) a
  = filter (λ r, primary_address r = a) rs ≫= (λ r, py "all" :: spec_memberships r).
Proof.
  rewrite <- joined_hosts. unfold groups_of.
  by rewrite omap_app, omap_add_groups.
Qed.

Lemma named_registration a r :
  omap (assigned a (py "ansible_host")) (spec_registration r)
  = if bool_decide (primary_address r = a) then [PyStr (primary_address r)] else [].
Proof.
  unfold spec_registration. cbv zeta.
  rewrite !omap_app, omap_add_hosts by done.
  cbn [omap list_omap assigned].
  rewrite (bool_decide_false (_ ∧ py "enabled" = _))
    by (intros [_ ?]; by vm_compute in *).
  destruct (decide (primary_address r = a)) as [Ha|Ha].
  - by rewrite !bool_decide_true by done.
  - rewrite !bool_decide_false; [done..|]. by intros [? _].
Qed.

Lemma named_run groups rs a :
  variable ((add_group <$> groups) ++ (rs ≫= spec_registration)) a (py "ansible_host")
  = (λ r, PyStr (primary_address r)) <$> last (filter (λ r, primary_address r = a) rs).
Proof.
  unfold variable. rewrite omap_app, omap_add_groups, app_nil_l by done.
  rewrite <- fmap_last. f_equal.
  induction rs as [|r rs IH]; [done|].
  rewrite bind_cons, omap_app, IH, named_registration, filter_cons.
  destruct (decide (primary_address r = a)).
  - by rewrite bool_decide_true by done.
  - by rewrite bool_decide_false by done.
Qed.

Lemma last_filter_elem {A} (P : A → Prop) `{!∀ x, Decision (P x)} l x :
  x ∈ l → P x → ∃ y, last (filter P l) = Some y ∧ P y ∧ y ∈ l.
Proof.
  intros Hx HP.
  destruct (last (filter P l)) as [y|] eqn:Hy.
  - exists y. split; [done|].
    apply last_Some_elem_of, list_elem_of_filter in Hy. done.
  - apply last_None in Hy.
    assert (x ∈ filter P l) as Hin by (by apply list_elem_of_filter).
    rewrite Hy in Hin. by apply elem_of_nil in Hin.
Qed.

(** *** Calls on an inventory that may raise *)

Lemma inventory_bind_ext {A B} (m m' : Inventory A) (f f' : A → Inventory B) log :
  m log = m' log →
  (∀ a log1, f a log1 = f' a log1) →
  (m ≫= f) log = (m' ≫= f') log.
Proof.
  intros Hm Hf. unfold mbind, inventory_bind. rewrite Hm.
  destruct (m' log) as [[a|e] log1]; [apply Hf | done].
Qed.

Lemma attempt_cons c calls log :
  attempt (c :: calls) log
  = match refuses log c with
    | None => attempt calls (log ++ [c])
    | Some e => (Raise e, log)
    end.
Proof.
  unfold attempt. cbn [for_each]. unfold mbind, inventory_bind, inventory_call.
  by destruct (refuses log c).
Qed.

Lemma attempt_app calls1 calls2 log :
  attempt (calls1 ++ calls2) log = (attempt calls1 ;; attempt calls2) log.
Proof.
  revert log. induction calls1 as [|c calls1 IH]; intros log; [done|].
  cbn [app]. unfold mbind, inventory_bind in *. rewrite !attempt_cons.
  destruct (refuses log c); [done|]. apply IH.
Qed.

Lemma attempt_each {A} (f : A → call) xs log :
  for_each xs (λ x, inventory_call (f x)) log = attempt (f <$> xs) log.
Proof.
  revert log. induction xs as [|x xs IH]; intros log; [done|].
  rewrite fmap_cons, attempt_cons. cbn [for_each].
  unfold mbind, inventory_bind, inventory_call.
  destruct (refuses log (f x)); [done|]. apply IH.
Qed.

(** On an inventory that accepts every call, all the calls are made. *)
Lemma attempt_accepted calls log :
  (∀ log' c, refuses log' c = None) →
  attempt calls log = (Ok tt, log ++ calls).
Proof.
  intros Hacc. revert log. induction calls as [|c calls IH]; intros log.
  { cbn. by rewrite app_nil_r. }
  by rewrite attempt_cons, Hacc, IH, <- app_assoc.
Qed.

(** The calls made are a prefix of the calls attempted: all of them when the
    run returns, and those before the call that the inventory refused when
    it raises. *)
Lemma attempt_result calls log r log' :
  attempt calls log = (r, log') →
  ∃ made,
    log' = log ++ made
    ∧ made `prefix_of` calls
    ∧ (r = Ok tt → made = calls)
    ∧ (∀ e, r = Raise e →
         ∃ c, refuses log' c = Some e ∧ (made ++ [c]) `prefix_of` calls).
Proof.
  revert log. induction calls as [|c calls IH]; intros log.
  { intros [= <- <-]. exists []. rewrite app_nil_r. by split_and!. }
  rewrite attempt_cons. destruct (refuses log c) as [e|] eqn:Hc.
  - intros [= <- <-]. exists []. rewrite app_nil_r. split_and!; try done.
    + apply prefix_nil.
    + intros e' [= <-]. exists c. split; [done|]. by apply prefix_cons, prefix_nil.
  - intros (made & -> & Hpre & Hok & Hraise)%IH. exists (c :: made).
    rewrite <- app_assoc. split_and!; try done.
    + by apply prefix_cons.
    + intros Hr. by rewrite Hok.
    + intros e Hr. destruct (Hraise e Hr) as (c' & Hc' & Hpre').
      exists c'. rewrite <- app_assoc in Hc'. split; [done|].
      by apply prefix_cons.
Qed.

Lemma add_to_groups_with hostname names log :
  for_each (PyStr <$> names)
    (λ val, g ← pure (_sanitize_group_name val); inventory_call (add_host hostname g)) log
  = attempt (add_host hostname <$> (sanitize <$> names)) log.
Proof.
  revert log. induction names as [|s names IH]; intros log; [done|].
  rewrite !fmap_cons, attempt_cons. cbn [for_each].
  unfold mbind at 1, inventory_bind.
  change ((pure (_sanitize_group_name (PyStr s))
             ≫= λ g, inventory_call (add_host hostname g)) log)
    with (inventory_call (add_host hostname (sanitize s)) log).
  unfold inventory_call at 1.
  destruct (refuses log (add_host hostname (sanitize s))); [done|]. apply IH.
Qed.

Lemma register_host_attempt host r log :
  decode_host host = Some r → names_only r = true →
  register_host_with host log = attempt (spec_registration r) log.
Proof.
  intros (gl & Hk & Hgl & Hd & He)%decode_host_fields Hn.
  unfold register_host_with, spec_registration, spec_memberships, names_only,
    placeholder in *. cbv zeta.
  rewrite Hk, Hgl, He, pure_bind_Ok.
  cbn [app]. rewrite !attempt_cons.
  unfold mbind at 1, inventory_bind, inventory_call at 1.
  destruct (refuses log _) as [e|]; [done|].
  unfold mbind at 1, inventory_bind, inventory_call at 1.
  destruct (refuses (log ++ _) _) as [e|]; [done|].
  rewrite pure_bind_Ok, attempt_app.
  rewrite (decode_group_none_list _ _ Hd).
  apply inventory_bind_ext.
  - destruct (bool_decide (group_list r = [None])); cbn [negb]; [done|].
    rewrite (decode_group_names _ _ Hd Hn). cbn [iterate].
    rewrite pure_bind_Ok. apply add_to_groups_with.
  - intros [] log1. rewrite pure_bind_Ok, attempt_cons.
    unfold inventory_call. by destruct (refuses log1 _).
Qed.

Lemma register_hosts_attempt hosts rs log :
  Forall2 (λ host r, decode_host host = Some r) hosts rs →
  forallb names_only rs = true →
  for_each hosts register_host_with log = attempt (rs ≫= spec_registration) log.
Proof.
  intros Hd. revert log.
  induction Hd as [|host r hosts rs Hr Hd IH]; intros log; [done|].
  cbn [forallb]. intros [Hn Hns]%andb_true_iff.
  rewrite bind_cons, attempt_app. cbn [for_each].
  apply inventory_bind_ext; [by apply register_host_attempt|].
  intros _ log1. by apply IH.
Qed.

Lemma parse_with_load_failed url token text log :
  try_load url token = inl text →
  parse_with url token log
  = (Raise (AnsibleError (py "An error occurred, the original exception is: " ++ text)),
     log).
Proof.
  intros Ht. unfold parse_with. by rewrite (load_failed _ _ _ Ht), pure_bind_Raise.
Qed.

Lemma parse_with_rejected url token data log :
  _load_inventory_data url token = Ok data →
  conforms data = false →
  parse_with url token log
  = (Raise (AnsibleError (py "Unable to validate data, the original error is: "
                          ++ validation_message data)),
     log).
Proof.
  intros Hl Hc. unfold parse_with, validate.
  by rewrite Hl, pure_bind_Ok, Hc, pure_bind_Raise.
Qed.

Lemma parse_with_accepted url token data rs log :
  _load_inventory_data url token = Ok data →
  decode_payload data = Some rs →
  parse_with url token log
  = if forallb names_only rs
    then attempt ((add_group <$> set_order (spec_sort_hosts rs ≫= spec_memberships))
                  ++ (spec_sort_hosts rs ≫= spec_registration)) log
    else (Raise TypeError, log).
Proof.
  intros Hl Hrs.
  assert (conforms data = true) as Hc.
  { unfold conforms. apply bool_decide_eq_true. by rewrite Hrs. }
  destruct (sorted_data_decoded _ _ Hrs) as (hosts & _ & _ & Hs & Hd).
  unfold parse_with, validate.
  rewrite Hl, pure_bind_Ok, Hc, pure_bind_Ok, Hs, pure_bind_Ok.
  unfold collect_groups.
  rewrite (forallb_Permutation _ rs (spec_sort_hosts rs))
    by (symmetry; apply stable_sort_Permutation).
  destruct (forallb names_only (spec_sort_hosts rs)) eqn:Hn.
  - rewrite (collect_groups_names _ _ _ Hd Hn), pure_bind_Ok, app_nil_l.
    rewrite attempt_app. apply inventory_bind_ext; [apply attempt_each|].
    intros _ log1. by apply register_hosts_attempt.
  - by rewrite (collect_groups_null _ _ _ Hd Hn), pure_bind_Raise.
Qed.

(** On an inventory that accepts every call, the run is [parse]. *)
Lemma parse_with_accepting url token log :
  (∀ log' c, refuses log' c = None) →
  parse_with url token log = parse url token log.
Proof.
  intros Hacc.
  destruct (try_load url token) as [text|data] eqn:Ht.
  { by rewrite (parse_with_load_failed _ _ _ _ Ht), (parse_load_failed _ _ _ _ Ht). }
  assert (_load_inventory_data url token = Ok data) as Hl
    by (unfold _load_inventory_data; by rewrite Ht).
  destruct (conforms data) eqn:Hc.
  - apply conforms_decode in Hc as [rs Hrs].
    rewrite (parse_with_accepted _ _ _ _ _ Hl Hrs), (parse_accepted _ _ _ _ _ Hl Hrs).
    destruct (forallb names_only rs); [|done].
    by rewrite attempt_accepted, app_assoc.
  - by rewrite (parse_with_rejected _ _ _ _ Hl Hc), (parse_rejected _ _ _ _ Hl Hc).
Qed.

Lemma parse_with_cases url token log :
  (∃ text,
     try_load url token = inl text
     ∧ parse_with url token log
       = (Raise (AnsibleError (py "An error occurred, the original exception is: "
                               ++ text)),
          log))
  ∨ (∃ data,
       _load_inventory_data url token = Ok data
       ∧ conforms data = false
       ∧ parse_with url token log
         = (Raise (AnsibleError (py "Unable to validate data, the original error is: "
                                 ++ validation_message data)),
            log))
  ∨ (∃ data rs,
       _load_inventory_data url token = Ok data
       ∧ decode_payload data = Some rs
       ∧ forallb names_only rs = false
       ∧ parse_with url token log = (Raise TypeError, log))
  ∨ (∃ data rs,
       _load_inventory_data url token = Ok data
       ∧ decode_payload data = Some rs
       ∧ forallb names_only rs = true
       ∧ parse_with url token log
         = attempt ((add_group <$> set_order (spec_sort_hosts rs ≫= spec_memberships))
                    ++ (spec_sort_hosts rs ≫= spec_registration)) log).
Proof.
  destruct (try_load url token) as [text|data] eqn:Ht.
  { left. exists text. split; [done|]. by apply parse_with_load_failed. }
  assert (_load_inventory_data url token = Ok data) as Hl
    by (unfold _load_inventory_data; by rewrite Ht).
  right. destruct (conforms data) eqn:Hc.
  - right. apply conforms_decode in Hc as [rs Hrs].
    pose proof (parse_with_accepted _ _ _ _ log Hl Hrs) as Hp.
    destruct (forallb names_only rs) eqn:Hn; [right|left]; by exists data, rs.
  - left. exists data. split_and!; [done..|]. by apply parse_with_rejected.
Qed.

(** ** The claims *)

(** C1: for a payload that passes validation, [sorted_data] is the list of
    its hosts sorted by [primary_address]: a permutation of them, in
    non-decreasing order of the keys as [str], with hosts of equal keys in
    their original order. Each host of it has its [primary_address] as key,
    and the hosts that a run registers are named by these keys, in that
    order (none when the run raises). *)
Theorem sorted_registration (url token : str) (payload : value) :
  conforms payload = true →
  requests_get url (headers token) = response 200 (inr payload) →
  ∃ hosts sorted_hosts,
    getitem payload (py "hosts") = Ok (PyList hosts)
    ∧ sorted_data payload = Ok sorted_hosts
    ∧ sorted_hosts ≡ₚ hosts
    ∧ StronglySorted (key_le key_of) sorted_hosts
    ∧ (∀ k, filter (λ h, key_of h = k) sorted_hosts = filter (λ h, key_of h = k) hosts)
    ∧ Forall (λ h, getitem h PRIMARY_KEY = Ok (PyStr (key_of h))) sorted_hosts
    ∧ ∀ r log,
        parse url token [] = (r, log) →
        registered log
        = match r with
          | Ok _ => (λ h, (PyStr (key_of h), PyStr (key_of h))) <$> sorted_hosts
          | Raise _ => []
          end.
Proof.
  intros [rs Hrs]%conforms_decode Hnet.
  destruct (sorted_data_decoded _ _ Hrs) as (hosts & Hh & Hd & Hs & Hds).
  exists hosts, (stable_sort key_of hosts). split_and!; try done.
  - apply stable_sort_Permutation.
  - apply stable_sort_sorted.
  - intros k. apply stable_sort_filter.
  - apply Forall_forall. intros h Hin.
    apply (Forall2_elem_l _ _ _ _ Hds) in Hin as (r & _ & Hr).
    apply decode_host_fields in Hr as (gl & Hk & _).
    unfold key_of. by rewrite Hk.
  - intros r log.
    rewrite (parse_accepted _ _ _ _ _ (load_response_200 _ _ _ Hnet) Hrs).
    destruct (forallb names_only rs); intros [= <- <-]; [|done].
    rewrite ?app_nil_l, registered_app, registered_hosts.
    unfold registered at 1. rewrite omap_add_groups by done. cbn [app].
    symmetry. apply Forall2_fmap_eq.
    eapply Forall2_impl; [exact Hds|]. intros h r' Hr'. cbv beta.
    by rewrite (decode_host_key _ _ Hr').
Qed.

(** C2 (amended): for a payload that the schema accepts and in which every
    group list is the placeholder or holds names only, the calls that
    [parse] makes on the inventory are, in this order: one [add_group] per
    distinct sanitized group name, each created once, and after all of
    them, for each host in sorted order, [add_host] to [all],
    [set_variable] of [ansible_host] to the hostname, [add_host] to each of
    its sanitized groups, and [set_variable] of [enabled]; there is no group
    creation among the calls for the hosts. It makes them one after the
    other: all of them when the inventory accepts them, and those before the
    first call on which the inventory raises otherwise. *)
Theorem registration_sequence (url token : str) (payload : value) (rs : list RawHostRecord) :
  requests_get url (headers token) = response 200 (inr payload) →
  decode_payload payload = Some rs →
  forallb names_only rs = true →
  ∃ groups calls,
    NoDup groups
    ∧ (∀ g, g ∈ groups ↔ ∃ r, r ∈ rs ∧ g ∈ spec_memberships r)
    ∧ calls = (add_group <$> groups) ++ (spec_sort_hosts rs ≫= spec_registration)
    ∧ groups_created (spec_sort_hosts rs ≫= spec_registration) = []
    ∧ parse_with url token [] = attempt calls []
    ∧ (∀ r log,
         parse_with url token [] = (r, log) →
         log `prefix_of` calls
         ∧ (r = Ok tt → log = calls)
         ∧ (∀ e, r = Raise e →
              ∃ c, refuses log c = Some e ∧ (log ++ [c]) `prefix_of` calls))
    ∧ ((∀ log c, refuses log c = None) → parse_with url token [] = (Ok tt, calls)).
Proof using Type*.
  intros Hnet Hrs Hn.
  pose proof (parse_with_accepted _ _ _ _ [] (load_response_200 _ _ _ Hnet) Hrs) as Hp.
  rewrite Hn in Hp.
  eexists (set_order (spec_sort_hosts rs ≫= spec_memberships)), _. split_and!.
  - apply set_order_NoDup.
  - intros g. rewrite set_order_elem, list_elem_of_bind.
    unfold spec_sort_hosts. setoid_rewrite stable_sort_Permutation.
    split; intros (r & ? & ?); by exists r.
  - done.
  - apply created_hosts.
  - done.
  - intros r log. rewrite Hp.
    intros (made & Hlog & Hpre & Hok & Hraise)%attempt_result.
    rewrite app_nil_l in Hlog. by subst made.
  - intros Hacc. by rewrite Hp, attempt_accepted.
Qed.

(** C3 (amended): for a payload that fails validation, [validate] raises
    jsonschema's [ValidationError], and [parse] raises it on as the error
    that carries the validator's message (an [AnsibleError], the class of
    every error the plugin reports), without a call on the inventory. When
    [parse] raises, the inventory is as it was before unless the exception
    is one that the inventory raised on a call: then the calls made before
    that call stay. *)
Theorem invalid_payload_rejected (url token : str) (log : list call) :
  (∀ payload,
     requests_get url (headers token) = response 200 (inr payload) →
     conforms payload = false →
     validate payload = Raise (ValidationError (validation_message payload))
     ∧ parse_with url token log
       = (Raise (AnsibleError (py "Unable to validate data, the original error is: "
                               ++ validation_message payload)),
          log))
  ∧ (∀ e log',
       parse_with url token log = (Raise e, log') →
       log' = log
       ∨ ∃ made c, log' = log ++ made ∧ refuses log' c = Some e).
Proof.
  split.
  - intros payload Hnet Hc. split; [unfold validate; by rewrite Hc|].
    by apply parse_with_rejected; [apply load_response_200|].
  - intros e log'.
    destruct (parse_with_cases url token log)
      as [(? & _ & ->)|[(? & _ & _ & ->)
         |[(? & ? & _ & _ & _ & ->)|(data & rs & _ & _ & _ & ->)]]];
      try (intros [= _ <-]; by left).
    intros (made & -> & _ & _ & Hraise)%attempt_result.
    destruct (Hraise e eq_refl) as (c & Hc & _). right. by exists made, c.
Qed.

(** C4: a response whose status is not 200 makes the fetch step raise an
    error whose message holds the requested URL, a failure of the request
    or of decoding the body one whose message ends with the text of the
    cause; in both cases [parse] raises that error and makes no call on the
    inventory. *)
Theorem fetch_failures (url token : str) (log : list call) :
  (∀ status body,
     requests_get url (headers token) = response status body →
     status ≠ 200%Z →
     ∃ message,
       message = py "An error occurred, the original exception is: "
                 ++ py "Failed to fetch JSON inventory data from CMDB: "
                 ++ url ++ py "."
       ∧ _load_inventory_data url token = Raise (AnsibleError message)
       ∧ parse url token log = (Raise (AnsibleError message), log))
  ∧ (∀ text,
       requests_get url (headers token) = request_raises text
       ∨ requests_get url (headers token) = response 200 (inl text) →
       ∃ message,
         message = py "An error occurred, the original exception is: " ++ text
         ∧ _load_inventory_data url token = Raise (AnsibleError message)
         ∧ parse url token log = (Raise (AnsibleError message), log)).
Proof.
  split.
  - intros status body Hnet Hs. eexists. split; [done|].
    assert (try_load url token
            = inl (py "Failed to fetch JSON inventory data from CMDB: "
                   ++ url ++ py ".")) as Ht.
    { unfold try_load. rewrite Hnet.
      by destruct (Z.eqb_spec status 200). }
    by rewrite (load_failed _ _ _ Ht), (parse_load_failed _ _ _ _ Ht).
  - intros text Hnet. eexists. split; [done|].
    assert (try_load url token = inl text) as Ht.
    { unfold try_load. by destruct Hnet as [-> | ->]. }
    by rewrite (load_failed _ _ _ Ht), (parse_load_failed _ _ _ _ Ht).
Qed.

(** C5: on the scenario payload the hosts are sorted to [node-01],
    [node-02]; the only group created is [compute_]; [node-01] is added to
    [all] only and has [enabled] false; [node-02] is added to [all] and
    [compute_] and has [enabled] true. *)
Theorem scenario_registration (url token : str) :
  requests_get url (headers token) = response 200 (inr scenario_payload) →
  sorted_data scenario_payload
  = Ok [host_object "node-01" [PyNone] false;
        host_object "node-02" [PyStr (py "Compute!")] true]
  ∧ ∃ log,
      parse url token [] = (Ok tt, log)
      ∧ log = [add_group (py "compute_");
               add_host (PyStr (py "node-01")) (py "all");
               set_variable (PyStr (py "node-01")) (py "ansible_host") (PyStr (py "node-01"));
               set_variable (PyStr (py "node-01")) (py "enabled") (PyBool false);
               add_host (PyStr (py "node-02")) (py "all");
               set_variable (PyStr (py "node-02")) (py "ansible_host") (PyStr (py "node-02"));
               add_host (PyStr (py "node-02")) (py "compute_");
               set_variable (PyStr (py "node-02")) (py "enabled") (PyBool true)]
      ∧ groups_created log = [py "compute_"]
      ∧ groups_of log (py "node-01") = [py "all"]
      ∧ variable log (py "node-01") (py "enabled") = Some (PyBool false)
      ∧ groups_of log (py "node-02") = [py "all"; py "compute_"]
      ∧ variable log (py "node-02") (py "enabled") = Some (PyBool true).
Proof using Type*.
  intros Hnet. split; [by vm_compute|].
  assert (decode_payload scenario_payload = Some scenario_records) as Hrs
    by (by vm_compute).
  rewrite (parse_accepted _ _ _ _ _ (load_response_200 _ _ _ Hnet) Hrs).
  assert (forallb names_only scenario_records = true) as -> by (by vm_compute).
  assert (spec_sort_hosts scenario_records ≫= spec_memberships = [py "compute_"]) as ->
    by (by vm_compute).
  rewrite set_order_singleton.
  eexists. split; [done|]. by vm_compute.
Qed.

(** C6: a host whose group list is exactly [[None]] adds nothing to
    [host_groups], so the groups collected from a list of hosts are the
    same with or without it, and the calls made for it are [add_host] to
    [all] and the two [set_variable] calls: it joins no other group. *)
Theorem placeholder_no_groups (host hostname en : value) :
  getitem host (py "group_list") = Ok (PyList [PyNone]) →
  getitem host PRIMARY_KEY = Ok hostname →
  getitem host (py "enabled") = Ok en →
  (∀ host_groups, add_groups_of host host_groups = Ok host_groups)
  ∧ (∀ before after,
       collect_groups (before ++ host :: after) = collect_groups (before ++ after))
  ∧ (∀ log,
       register_host host log
       = (Ok tt,
          log ++ [add_host hostname (py "all");
                  set_variable hostname (py "ansible_host") hostname;
                  set_variable hostname (py "enabled") en])).
Proof.
  intros Hgl Hk He.
  assert (∀ host_groups, add_groups_of host host_groups = Ok host_groups) as Hadd.
  { intros host_groups. unfold add_groups_of. by rewrite Hgl. }
  split_and!; [done| |].
  - intros before after. unfold collect_groups. rewrite !for_acc_app.
    destruct (for_acc before add_groups_of []) as [acc|e]; [|done].
    rewrite !result_bind_Ok. cbn [for_acc]. by rewrite Hadd.
  - intros log. unfold register_host.
    rewrite Hk, Hgl, He, pure_bind_Ok, !inventory_bind_call, pure_bind_Ok.
    cbn [is_none_list negb]. rewrite ret_bind, pure_bind_Ok.
    unfold inventory. by rewrite <- !app_assoc.
Qed.

(** C7 (amended): for a host whose group list is not exactly [[None]], no
    element is filtered out: every element, null included, is passed to the
    sanitizer, in order. When the elements are all strings, each yields a
    membership in the group of its sanitized name. The sanitizer accepts
    strings only: an element that is not one, such as null, makes it raise
    [TypeError]. *)
Theorem no_null_filtering (host hostname en : value) (gl : list value) :
  getitem host (py "group_list") = Ok (PyList gl) →
  gl ≠ [PyNone] →
  getitem host PRIMARY_KEY = Ok hostname →
  getitem host (py "enabled") = Ok en →
  (∀ host_groups,
     add_groups_of host host_groups = for_acc gl append_sanitized host_groups)
  ∧ (∀ names,
       gl = PyStr <$> names →
       (∀ host_groups,
          add_groups_of host host_groups = Ok (host_groups ++ (sanitize <$> names)))
       ∧ (∀ log,
            register_host host log
            = (Ok tt,
               log ++ [add_host hostname (py "all");
                       set_variable hostname (py "ansible_host") hostname]
                   ++ (add_host hostname <$> (sanitize <$> names))
                   ++ [set_variable hostname (py "enabled") en])))
  ∧ (Exists (λ v, ∀ s, v ≠ PyStr s) gl →
     ∀ host_groups, add_groups_of host host_groups = Raise TypeError).
Proof.
  intros Hgl Hne Hk He.
  assert (is_none_list (PyList gl) = false) as Hnl.
  { destruct (is_none_list (PyList gl)) eqn:Hnl; [|done].
    by apply is_none_list_spec in Hnl. }
  assert (∀ host_groups,
            add_groups_of host host_groups
            = for_acc gl append_sanitized host_groups) as Hadd.
  { intros host_groups. unfold add_groups_of.
    by rewrite Hgl, result_bind_Ok, Hnl. }
  split_and!; [done| |].
  - intros names ->. split.
    + intros host_groups. rewrite Hadd. apply append_sanitized_names.
    + intros log. unfold register_host.
      rewrite Hk, Hgl, He, pure_bind_Ok, !inventory_bind_call, pure_bind_Ok, Hnl.
      cbn [negb iterate].
      erewrite inventory_bind_Ok;
        [|by rewrite pure_bind_Ok; apply add_to_groups].
      rewrite pure_bind_Ok. unfold inventory. by rewrite <- !app_assoc.
  - intros Hex host_groups. rewrite Hadd. by apply append_sanitized_not_str.
Qed.

(** C8: group-name sanitization is idempotent: sanitizing the sanitized name
    of any string gives that sanitized name again. *)
Theorem sanitize_idempotent (x : str) :
  ∃ y,
    _sanitize_group_name (PyStr x) = Ok y
    ∧ _sanitize_group_name (PyStr y) = Ok y.
Proof.
  exists (sanitize x). split; [done|].
  cbn [_sanitize_group_name]. f_equal. apply sanitize_fixed, sanitize_alphabet.
Qed.

(** C9: for every string the sanitizer returns the string obtained by
    replacing every character outside [[A-Za-z0-9_-]] with an underscore,
    lower-casing, and replacing hyphens with underscores, and that string
    holds characters of [[a-z0-9_]] only. *)
Theorem sanitize_result_alphabet (x : str) :
  _sanitize_group_name (PyStr x) = Ok (replace_hyphen (lower (regex_sub x)))
  ∧ ∀ c, c ∈ replace_hyphen (lower (regex_sub x)) →
      chr "a" ≤ c ≤ chr "z" ∨ chr "0" ≤ c ≤ chr "9" ∨ c = chr "_".
Proof.
  split; [done|]. intros c Hc.
  pose proof (sanitize_alphabet x) as Hx.
  apply list_elem_of_In, (proj1 (forallb_forall _ _) Hx) in Hc.
  unfold in_result_alphabet in Hc.
  rewrite !orb_true_iff in Hc. unfold in_range in Hc.
  rewrite !andb_true_iff, !N.leb_le, N.eqb_eq in Hc.
  destruct Hc as [[Hc|Hc]|Hc]; auto.
Qed.

(** C10 (amended): for a payload that the schema accepts, in which every
    group list is the placeholder or holds names only, hosts that share a
    [primary_address] do not make [parse] fail, and nothing checks that
    addresses are unique: [parse] makes the registration calls of every
    host under its address, those under one address in their payload order,
    so that the last [set_variable] call for the [enabled] of that hostname
    passes the [enabled] of the last of them. The run returns, with all the
    calls made, when the inventory accepts them. *)
Theorem shared_address_last_wins (url token : str) (payload : value)
    (rs : list RawHostRecord) (a : str) (r_last : RawHostRecord) :
  requests_get url (headers token) = response 200 (inr payload) →
  decode_payload payload = Some rs →
  forallb names_only rs = true →
  last (filter (λ r, primary_address r = a) rs) = Some r_last →
  ∃ calls,
    parse_with url token [] = attempt calls []
    ∧ registered calls
      = (λ r, (PyStr (primary_address r), PyStr (primary_address r)))
          <$> spec_sort_hosts rs
    ∧ filter (λ r, primary_address r = a) (spec_sort_hosts rs)
      = filter (λ r, primary_address r = a) rs
    ∧ variable calls a (py "enabled") = Some (PyBool (enabled r_last))
    ∧ (∀ log, parse_with url token [] = (Ok tt, log) → log = calls)
    ∧ ((∀ log c, refuses log c = None) → parse_with url token [] = (Ok tt, calls)).
Proof.
  intros Hnet Hrs Hn Hlast.
  pose proof (parse_with_accepted _ _ _ _ [] (load_response_200 _ _ _ Hnet) Hrs) as Hp.
  rewrite Hn in Hp. eexists. split; [exact Hp|].
  assert (filter (λ r, primary_address r = a) (spec_sort_hosts rs)
          = filter (λ r, primary_address r = a) rs) as Hst
    by apply stable_sort_filter.
  split_and!; [|done| | |].
  - rewrite registered_app, registered_hosts.
    unfold registered at 1. by rewrite omap_add_groups.
  - by rewrite variable_run, Hst, Hlast.
  - intros log. rewrite Hp.
    intros (made & Hlog & _ & Hok & _)%attempt_result.
    rewrite app_nil_l in Hlog. subst made. by apply Hok.
  - intros Hacc. by rewrite Hp, attempt_accepted.
Qed.

(** X1: what [parse] does with a payload that the schema accepts: when every
    group list is the placeholder or holds names only it makes, one after
    the other, the calls that create the groups and then those that register
    the hosts in sorted order, up to the first call on which the inventory
    raises; otherwise it raises [TypeError] and makes no call. *)
Theorem accepted_payload_outcome (url token : str) (payload : value)
    (rs : list RawHostRecord) (log : list call) :
  requests_get url (headers token) = response 200 (inr payload) →
  decode_payload payload = Some rs →
  parse_with url token log
  = (if forallb names_only rs
     then attempt ((add_group <$> set_order (spec_sort_hosts rs ≫= spec_memberships))
                   ++ (spec_sort_hosts rs ≫= spec_registration)) log
     else (Raise TypeError, log))
  ∧ (forallb names_only rs = true →
     ∀ r log',
       parse_with url token log = (r, log') →
       ∃ made,
         log' = log ++ made
         ∧ made `prefix_of`
             (add_group <$> set_order (spec_sort_hosts rs ≫= spec_memberships))
             ++ (spec_sort_hosts rs ≫= spec_registration)
         ∧ (r = Ok tt →
            made = (add_group <$> set_order (spec_sort_hosts rs ≫= spec_memberships))
                   ++ (spec_sort_hosts rs ≫= spec_registration))
         ∧ (∀ e, r = Raise e → ∃ c, refuses log' c = Some e)).
Proof.
  intros Hnet Hrs.
  pose proof (parse_with_accepted _ _ _ _ log (load_response_200 _ _ _ Hnet) Hrs) as Hp.
  split; [done|]. intros Hn r log'. rewrite Hp, Hn.
  intros (made & Hlog & Hpre & Hok & Hraise)%attempt_result.
  exists made. split_and!; try done.
  intros e He. destruct (Hraise e He) as (c & Hc & _). by exists c.
Qed.

(** X2: [verify_file] accepts a path exactly when the base class accepts it
    and it ends in [portal.yaml] or [portal.yml]. *)
Theorem verify_file_suffix (path : str) :
  verify_file path = true
  ↔ base_verify_file path = true
    ∧ ∃ stem, path = stem ++ py "portal.yaml" ∨ path = stem ++ py "portal.yml".
Proof.
  unfold verify_file, endswith. cbv zeta.
  destruct (base_verify_file path); [|by split; [|intros []]].
  split.
  - destruct (bool_decide _ || bool_decide _) eqn:Hs; [|done]. intros _.
    split; [done|].
    apply orb_true_iff in Hs as [[stem ->]%bool_decide_eq_true
                                |[stem ->]%bool_decide_eq_true];
      exists stem; [by left | by right].
  - intros [_ [stem [-> | ->]]].
    + rewrite (bool_decide_true (_ `suffix_of` _)); [done|]. by exists stem.
    + rewrite (bool_decide_true (py "portal.yml" `suffix_of` _)), orb_true_r;
        [done|]. by exists stem.
Qed.


(** X3: the sanitized name of a string has the length of the string, so the
    empty name, and no other, is sanitized to the empty name. *)
Theorem sanitize_length (x : str) :
  ∃ y,
    _sanitize_group_name (PyStr x) = Ok y
    ∧ length y = length x
    ∧ (y = [] ↔ x = []).
Proof.
  exists (sanitize x). split; [done|].
  assert (length (sanitize x) = length x) as Hlen
    by (by rewrite sanitize_pointwise, length_fmap).
  split; [done|].
  destruct x, (sanitize _); try done; by split.
Qed.

(** X4: sanitization works character by character: the sanitized name of a
    concatenation is the concatenation of the sanitized names. *)
Theorem sanitize_app (x y : str) :
  ∃ x' y',
    _sanitize_group_name (PyStr x) = Ok x'
    ∧ _sanitize_group_name (PyStr y) = Ok y'
    ∧ _sanitize_group_name (PyStr (x ++ y)) = Ok (x' ++ y').
Proof.
  exists (sanitize x), (sanitize y). split_and!; [done..|].
  cbn [_sanitize_group_name]. by rewrite !sanitize_pointwise, fmap_app.
Qed.

(** X5: the names that sanitization returns unchanged are exactly the names
    over [[a-z0-9_]]. *)
Theorem sanitize_fixed_points (x : str) :
  _sanitize_group_name (PyStr x) = Ok x
  ↔ ∀ c, c ∈ x → chr "a" ≤ c ≤ chr "z" ∨ chr "0" ≤ c ≤ chr "9" ∨ c = chr "_".
Proof.
  assert (forallb in_result_alphabet x = true
          ↔ ∀ c, c ∈ x →
              chr "a" ≤ c ≤ chr "z" ∨ chr "0" ≤ c ≤ chr "9" ∨ c = chr "_") as <-.
  { rewrite forallb_forall. setoid_rewrite <- list_elem_of_In.
    apply forall_proper; intros c. apply forall_proper; intros _.
    unfold in_result_alphabet, in_range.
    rewrite !orb_true_iff, !andb_true_iff, !N.leb_le, N.eqb_eq.
    split; [intros [[?|?]|?] | intros [?|[?|?]]]; auto. }
  cbn [_sanitize_group_name]. split.
  - intros [= Hx]. rewrite <- Hx at 1. apply sanitize_alphabet.
  - intros Hx. by rewrite sanitize_fixed.
Qed.

(** X6: names that differ only in the case of ASCII letters, in hyphens
    against underscores, or in which characters outside [[A-Za-z0-9_-]] they
    hold, have the same sanitized name: lower-casing the ASCII letters of a
    name, replacing its hyphens, or replacing its characters outside the
    class beforehand does not change the result. *)
Theorem sanitize_absorbs (x : str) :
  _sanitize_group_name (PyStr (ascii_lower <$> x)) = _sanitize_group_name (PyStr x)
  ∧ _sanitize_group_name (PyStr (replace_hyphen x)) = _sanitize_group_name (PyStr x)
  ∧ _sanitize_group_name (PyStr (regex_sub x)) = _sanitize_group_name (PyStr x).
Proof.
  cbn [_sanitize_group_name]. unfold replace_hyphen, regex_sub.
  rewrite !sanitize_pointwise, <- !list_fmap_compose.
  split_and!; f_equal; apply list_fmap_ext; intros i c _; cbn.
  - apply sanitize_char_lower.
  - apply sanitize_char_hyphen.
  - apply sanitize_char_class.
Qed.

(** X7: the fetch step returns the data exactly when the request is answered
    with status 200 and a body that decodes to it; whatever else happens, it
    raises an [AnsibleError] whose message starts with the same words, the
    error for another status included. *)
Theorem load_inventory_data_outcomes (url token : str) :
  (∀ data,
     _load_inventory_data url token = Ok data
     ↔ requests_get url (headers token) = response 200 (inr data))
  ∧ (∀ e,
       _load_inventory_data url token = Raise e →
       ∃ text,
         e = AnsibleError (py "An error occurred, the original exception is: "
                           ++ text)).
Proof.
  unfold _load_inventory_data, try_load.
  destruct (requests_get url (headers token)) as [status [text|body]|text].
  - destruct (Z.eqb_spec status 200) as [->|?];
      (split; [by split|intros e [= <-]; by eexists]).
  - destruct (Z.eqb_spec status 200) as [->|?].
    + split; [|done]. intros data. split; by intros [= ->].
    + split; [|intros e [= <-]; by eexists].
      intros data. split; [done|]. by intros [= ? _].
  - split; [by split|intros e [= <-]; by eexists].
Qed.

(** X9: [parse] reads [primary_address], [group_list] and [enabled] of the
    hosts and nothing else of the payload: two payloads that the schema
    accepts and that agree on these, whatever other fields they hold and in
    whatever order their fields come, give the same result and the same
    calls. *)
Theorem unread_fields_ignored (url1 token1 url2 token2 : str)
    (payload1 payload2 : value) (rs : list RawHostRecord) (log : list call) :
  requests_get url1 (headers token1) = response 200 (inr payload1) →
  requests_get url2 (headers token2) = response 200 (inr payload2) →
  decode_payload payload1 = Some rs →
  decode_payload payload2 = Some rs →
  parse url1 token1 log = parse url2 token2 log.
Proof.
  intros Hnet1 Hnet2 Hrs1 Hrs2.
  by rewrite (parse_accepted _ _ _ _ _ (load_response_200 _ _ _ Hnet1) Hrs1),
    (parse_accepted _ _ _ _ _ (load_response_200 _ _ _ Hnet2) Hrs2).
Qed.

(** X10: when no two hosts share a [primary_address], the order in which the
    payload lists the hosts does not matter: a payload with the same hosts
    in another order gives the same result and the same calls. *)
Theorem host_order_irrelevant (url1 token1 url2 token2 : str)
    (payload1 payload2 : value) (rs1 rs2 : list RawHostRecord) (log : list call) :
  requests_get url1 (headers token1) = response 200 (inr payload1) →
  requests_get url2 (headers token2) = response 200 (inr payload2) →
  decode_payload payload1 = Some rs1 →
  decode_payload payload2 = Some rs2 →
  rs1 ≡ₚ rs2 →
  NoDup (primary_address <$> rs1) →
  parse url1 token1 log = parse url2 token2 log.
Proof.
  intros Hnet1 Hnet2 Hrs1 Hrs2 Hp Hnd.
  rewrite (parse_accepted _ _ _ _ _ (load_response_200 _ _ _ Hnet1) Hrs1),
    (parse_accepted _ _ _ _ _ (load_response_200 _ _ _ Hnet2) Hrs2).
  rewrite (forallb_Permutation _ _ _ Hp).
  assert (spec_sort_hosts rs1 = spec_sort_hosts rs2) as ->; [|done].
  apply stable_sort_determined. intros k. by apply filter_key_Permutation.
Qed.

(** X11: a payload whose hosts already come in non-decreasing order of
    [primary_address] is left in that order by the sort. *)
Theorem sorted_payload_keeps_order (payload : value) (hosts : list value) :
  conforms payload = true →
  getitem payload (py "hosts") = Ok (PyList hosts) →
  StronglySorted (key_le key_of) hosts →
  sorted_data payload = Ok hosts.
Proof.
  intros [rs Hrs]%conforms_decode Hh Hs.
  destruct (sorted_data_decoded _ _ Hrs) as (hosts' & Hh' & _ & -> & _).
  rewrite Hh in Hh'. injection Hh' as <-. f_equal.
  symmetry. by apply stable_sort_unique.
Qed.

(** X12: a payload with no hosts is accepted: [parse] returns and makes no
    call on the inventory. *)
Theorem no_hosts_no_calls (url token : str) (payload : value) (log : list call) :
  requests_get url (headers token) = response 200 (inr payload) →
  getitem payload (py "hosts") = Ok (PyList []) →
  parse url token log = (Ok tt, log).
Proof using Type*.
  intros Hnet Hh.
  assert (decode_payload payload = Some []) as Hrs.
  { unfold getitem, decode_payload in *.
    destruct payload as [| | | |?|items]; try done.
    destruct (dict_lookup (py "hosts") items); by simplify_eq. }
  rewrite (parse_accepted _ _ _ _ _ (load_response_200 _ _ _ Hnet) Hrs).
  cbn. by rewrite set_order_nil, !app_nil_r.
Qed.

(** X13: in a run that returns, the groups are created before any host is
    added, each once; every group that a host is added to, [all] apart, has
    been created, and every group created has a host added to it. *)
Theorem groups_created_and_used (url token : str) (log : list call) :
  parse url token [] = (Ok tt, log) →
  (∃ calls,
     log = (add_group <$> groups_created log) ++ calls
     ∧ groups_created calls = [])
  ∧ NoDup (groups_created log)
  ∧ (∀ host g, g ∈ groups_of log host → g = py "all" ∨ g ∈ groups_created log)
  ∧ (∀ g, g ∈ groups_created log → ∃ host, g ∈ groups_of log host).
Proof using Type*.
  destruct (parse_cases url token [])
    as [(? & _ & ->)|[(? & _ & _ & ->)
       |[(? & ? & _ & _ & _ & ->)|(data & rs & _ & _ & _ & ->)]]];
    intros [= <-].
  rewrite ?app_nil_l, created_run. split_and!.
  - eexists. split; [done|]. apply created_hosts.
  - apply set_order_NoDup.
  - intros host g. rewrite joined_run, set_order_elem, !list_elem_of_bind.
    intros (r & Hg & [_ Hr]%list_elem_of_filter).
    apply elem_of_cons in Hg as [->|Hg]; [by left|]. right. by exists r.
  - intros g. rewrite set_order_elem, list_elem_of_bind.
    intros (r & Hg & Hr). exists (primary_address r).
    rewrite joined_run, list_elem_of_bind. exists r.
    split; [by right|]. by apply list_elem_of_filter.
Qed.

(** X14: in a run that returns, every host of the payload is registered:
    among the calls made are [add_host] of its [primary_address] to [all],
    [set_variable] of its [ansible_host] to that address, and [set_variable]
    of its [enabled] to the host's [enabled]. *)
Theorem every_host_registered (url token : str) (payload : value)
    (hosts : list value) (host hostname en : value) (log : list call) :
  requests_get url (headers token) = response 200 (inr payload) →
  parse_with url token [] = (Ok tt, log) →
  getitem payload (py "hosts") = Ok (PyList hosts) →
  host ∈ hosts →
  getitem host PRIMARY_KEY = Ok hostname →
  getitem host (py "enabled") = Ok en →
  add_host hostname (py "all") ∈ log
  ∧ set_variable hostname (py "ansible_host") hostname ∈ log
  ∧ set_variable hostname (py "enabled") en ∈ log.
Proof.
  intros Hnet Hp Hh Hin Hk He.
  pose proof (load_response_200 _ _ _ Hnet) as Hl.
  destruct (parse_with_cases url token [])
    as [(? & _ & Hq)|[(? & _ & _ & Hq)
       |[(? & ? & _ & _ & _ & Hq)|(data & rs & Hl' & Hrs & _ & Hq)]]];
    rewrite Hq in Hp; try done.
  apply attempt_result in Hp as (made & -> & _ & Hok & _).
  rewrite (Hok eq_refl), app_nil_l. clear Hok Hq.
  rewrite Hl in Hl'. injection Hl' as <-.
  destruct (decode_payload_hosts _ _ Hrs) as (hosts' & Hh' & Hd).
  rewrite Hh in Hh'. injection Hh' as <-.
  destruct (Forall2_elem_l _ _ _ _ Hd Hin) as (r & Hr & Hdec).
  apply decode_host_fields in Hdec as (gl & Hk' & _ & _ & He').
  rewrite Hk in Hk'. injection Hk' as ->. rewrite He in He'. injection He' as ->.
  assert (r ∈ spec_sort_hosts rs) as Hrs'
    by (unfold spec_sort_hosts; by rewrite stable_sort_Permutation).
  assert (∀ c, c ∈ spec_registration r →
            c ∈ (add_group <$> set_order (spec_sort_hosts rs ≫= spec_memberships))
                ++ (spec_sort_hosts rs ≫= spec_registration)) as Hsub.
  { intros c Hc. apply elem_of_app. right.
    apply list_elem_of_bind. by exists r. }
  unfold spec_registration in Hsub. cbv zeta in Hsub.
  split_and!; apply Hsub.
  - left.
  - right. left.
  - rewrite !elem_of_app. right. right. left.
Qed.

End Plugin.

(** ** The claims on sample runs *)

(** C1 on the scenario payload. *)
Lemma sorted_registration_scenario :
  conforms scenario_payload = true
  ∧ ∃ hosts sorted_hosts,
      getitem scenario_payload (py "hosts") = Ok (PyList hosts)
      ∧ sorted_data scenario_payload = Ok sorted_hosts
      ∧ sorted_hosts ≡ₚ hosts
      ∧ StronglySorted (key_le key_of) sorted_hosts
      ∧ (∀ k, filter (λ h, key_of h = k) sorted_hosts = filter (λ h, key_of h = k) hosts)
      ∧ Forall (λ h, getitem h PRIMARY_KEY = Ok (PyStr (key_of h))) sorted_hosts
      ∧ ∀ r log,
          parse id (answers (response 200 (inr scenario_payload))) (says "invalid")
            remove_dups example_url example_token [] = (r, log) →
          registered log
          = match r with
            | Ok _ => (λ h, (PyStr (key_of h), PyStr (key_of h))) <$> sorted_hosts
            | Raise _ => []
            end.
Proof.
  split; [by vm_compute|].
  apply (sorted_registration id (answers (response 200 (inr scenario_payload)))
           (says "invalid") remove_dups example_url example_token scenario_payload);
    by vm_compute.
Defined.

(** C2: a valid payload with a mixed group list: [parse] raises and the
    inventory receives no call, where the claim has it receive the calls
    that register [node-01]. *)
Lemma mixed_group_list_no_calls :
  conforms mixed_payload = true
  ∧ parse id (answers (response 200 (inr mixed_payload))) (says "invalid")
      remove_dups example_url example_token []
    = (Raise TypeError, []).
Proof. split; by vm_compute. Qed.

(** C2 (amended) on the payload with a shared address, with an inventory
    that accepts every call. *)
Lemma registration_sequence_duplicates :
  decode_payload duplicate_payload = Some duplicate_records
  ∧ forallb names_only duplicate_records = true
  ∧ ∃ groups,
      NoDup groups
      ∧ (∀ g, g ∈ groups ↔ ∃ r, r ∈ duplicate_records ∧ g ∈ spec_memberships id r)
      ∧ groups_created (spec_sort_hosts duplicate_records ≫= spec_registration id) = []
      ∧ parse_with id (answers (response 200 (inr duplicate_payload))) (says "invalid")
          remove_dups accepts_all example_url example_token []
        = (Ok tt,
           (add_group <$> groups)
           ++ (spec_sort_hosts duplicate_records ≫= spec_registration id)).
Proof.
  split; [by vm_compute|]. split; [by vm_compute|].
  destruct (registration_sequence id (answers (response 200 (inr duplicate_payload)))
              (says "invalid") remove_dups NoDup_remove_dups elem_of_remove_dups
              accepts_all example_url example_token duplicate_payload duplicate_records)
    as (groups & calls & Hnd & Hg & -> & Hc & _ & _ & Hacc); [by vm_compute..|].
  exists groups. split_and!; [done..|]. apply Hacc. reflexivity.
Defined.

(** C3: a valid payload with a host whose [primary_address] is empty, and
    an inventory that refuses empty names: [parse] raises the inventory's
    error after the group of the other host has been created, where the
    claim has the inventory left unchanged on any error. *)
Lemma refused_call_keeps_earlier_calls :
  conforms unnamed_payload = true
  ∧ parse_with id (answers (response 200 (inr unnamed_payload))) (says "invalid")
      remove_dups refuses_empty_names example_url example_token []
    = (Raise (AnsibleError (py "Invalid empty host name provided: ")),
       [add_group (py "ops")]).
Proof. split; by vm_compute. Qed.

(** C3 (amended) on a payload whose host has no [primary_address]. *)
Lemma invalid_payload_rejected_incomplete :
  conforms incomplete_payload = false
  ∧ validate (says "invalid") incomplete_payload
    = Raise (ValidationError (py "invalid"))
  ∧ parse_with id (answers (response 200 (inr incomplete_payload))) (says "invalid")
      remove_dups refuses_empty_names example_url example_token []
    = (Raise (AnsibleError (py "Unable to validate data, the original error is: "
                            ++ py "invalid")),
       []).
Proof.
  split; [by vm_compute|].
  apply (proj1 (invalid_payload_rejected id
                  (answers (response 200 (inr incomplete_payload)))
                  (says "invalid") remove_dups refuses_empty_names
                  example_url example_token [])
           incomplete_payload);
    by vm_compute.
Defined.

(** C4 on a response with status 404. *)
Lemma fetch_failures_not_found :
  ∃ message,
    message = py "An error occurred, the original exception is: "
              ++ py "Failed to fetch JSON inventory data from CMDB: "
              ++ example_url ++ py "."
    ∧ _load_inventory_data (answers (response 404 (inr scenario_payload)))
        example_url example_token
      = Raise (AnsibleError message)
    ∧ parse id (answers (response 404 (inr scenario_payload))) (says "invalid")
        remove_dups example_url example_token []
      = (Raise (AnsibleError message), []).
Proof.
  apply (proj1 (fetch_failures id (answers (response 404 (inr scenario_payload)))
                  (says "invalid") remove_dups example_url example_token [])
           404%Z (inr scenario_payload));
    [reflexivity | discriminate].
Defined.

(** C5 with sets listed in order of first occurrence. *)
Lemma scenario_run :
  sorted_data scenario_payload
  = Ok [host_object "node-01" [PyNone] false;
        host_object "node-02" [PyStr (py "Compute!")] true]
  ∧ ∃ log,
      parse id (answers (response 200 (inr scenario_payload))) (says "invalid")
        remove_dups example_url example_token [] = (Ok tt, log)
      ∧ log = [add_group (py "compute_");
               add_host (PyStr (py "node-01")) (py "all");
               set_variable (PyStr (py "node-01")) (py "ansible_host") (PyStr (py "node-01"));
               set_variable (PyStr (py "node-01")) (py "enabled") (PyBool false);
               add_host (PyStr (py "node-02")) (py "all");
               set_variable (PyStr (py "node-02")) (py "ansible_host") (PyStr (py "node-02"));
               add_host (PyStr (py "node-02")) (py "compute_");
               set_variable (PyStr (py "node-02")) (py "enabled") (PyBool true)]
      ∧ groups_created log = [py "compute_"]
      ∧ groups_of log (py "node-01") = [py "all"]
      ∧ variable log (py "node-01") (py "enabled") = Some (PyBool false)
      ∧ groups_of log (py "node-02") = [py "all"; py "compute_"]
      ∧ variable log (py "node-02") (py "enabled") = Some (PyBool true).
Proof.
  apply (scenario_registration id (answers (response 200 (inr scenario_payload)))
           (says "invalid") remove_dups NoDup_remove_dups elem_of_remove_dups
           example_url example_token).
  reflexivity.
Defined.

(** C6 on [node-01] of the scenario. *)
Lemma placeholder_no_groups_node :
  (∀ host_groups,
     add_groups_of id (host_object "node-01" [PyNone] false) host_groups
     = Ok host_groups)
  ∧ (∀ before after,
       collect_groups id (before ++ host_object "node-01" [PyNone] false :: after)
       = collect_groups id (before ++ after))
  ∧ (∀ log,
       register_host id (host_object "node-01" [PyNone] false) log
       = (Ok tt,
          log ++ [add_host (PyStr (py "node-01")) (py "all");
                  set_variable (PyStr (py "node-01")) (py "ansible_host")
                    (PyStr (py "node-01"));
                  set_variable (PyStr (py "node-01")) (py "enabled") (PyBool false)])).
Proof.
  apply (placeholder_no_groups id (host_object "node-01" [PyNone] false)
           (PyStr (py "node-01")) (PyBool false));
    reflexivity.
Defined.

(** C7: the host whose group list is [["ops", null]]: the list is not the
    placeholder and is not filtered, null reaches the sanitizer, which raises
    [TypeError] for it; [parse] raises and the host is added to no group,
    where the claim has null yield a group membership. *)
Lemma null_member_raises :
  conforms mixed_payload = true
  ∧ getitem (host_object "node-01" [PyStr (py "ops"); PyNone] true) (py "group_list")
    = Ok (PyList [PyStr (py "ops"); PyNone])
  ∧ is_none_list (PyList [PyStr (py "ops"); PyNone]) = false
  ∧ _sanitize_group_name id PyNone = Raise TypeError
  ∧ add_groups_of id (host_object "node-01" [PyStr (py "ops"); PyNone] true) []
    = Raise TypeError
  ∧ ∃ log,
      parse id (answers (response 200 (inr mixed_payload))) (says "invalid")
        remove_dups example_url example_token []
      = (Raise TypeError, log)
      ∧ groups_of log (py "node-01") = [].
Proof. split_and!; [by vm_compute..|]. exists []. split; by vm_compute. Qed.

(** C7 (amended) on a host with two names, and on the host with
    [["ops", null]]. *)
Lemma no_null_filtering_names :
  (∀ host_groups,
     add_groups_of id (host_object "node-03" [PyStr (py "Ops"); PyStr (py "db-1")] true)
       host_groups
     = Ok (host_groups ++ [py "ops"; py "db_1"]))
  ∧ (∀ host_groups,
       add_groups_of id (host_object "node-01" [PyStr (py "ops"); PyNone] true)
         host_groups
       = Raise TypeError).
Proof.
  split.
  - intros host_groups.
    destruct (no_null_filtering id
                (host_object "node-03" [PyStr (py "Ops"); PyStr (py "db-1")] true)
                (PyStr (py "node-03")) (PyBool true)
                [PyStr (py "Ops"); PyStr (py "db-1")])
      as (_ & Hnames & _); [reflexivity | discriminate | reflexivity..|].
    destruct (Hnames [py "Ops"; py "db-1"]) as [Hadd _]; [reflexivity|].
    exact (Hadd host_groups).
  - destruct (no_null_filtering id
                (host_object "node-01" [PyStr (py "ops"); PyNone] true)
                (PyStr (py "node-01")) (PyBool true)
                [PyStr (py "ops"); PyNone])
      as (_ & _ & Hnull); [reflexivity | discriminate | reflexivity..|].
    apply Hnull. right. left. discriminate.
Defined.

(** C10: two hosts under one address, one with a mixed group list: the
    payload is valid and [parse] fails, where the claim has it not fail. *)
Lemma shared_address_mixed_fails :
  conforms duplicate_mixed_payload = true
  ∧ parse id (answers (response 200 (inr duplicate_mixed_payload))) (says "invalid")
      remove_dups example_url example_token []
    = (Raise TypeError, []).
Proof. split; by vm_compute. Qed.

(** C10 (amended) on the payload with a shared address, with an inventory
    that accepts every call: the last [set_variable] call for the [enabled]
    of [node-01] passes false, the value of the later of its two hosts. *)
Lemma shared_address_last_wins_duplicates :
  decode_payload duplicate_payload = Some duplicate_records
  ∧ forallb names_only duplicate_records = true
  ∧ last (filter (λ r, primary_address r = py "node-01") duplicate_records)
    = Some {| primary_address := py "node-01"; group_list := [None]; enabled := false |}
  ∧ ∃ calls,
      parse_with id (answers (response 200 (inr duplicate_payload))) (says "invalid")
        remove_dups accepts_all example_url example_token [] = (Ok tt, calls)
      ∧ registered calls
        = (λ r, (PyStr (primary_address r), PyStr (primary_address r)))
            <$> spec_sort_hosts duplicate_records
      ∧ filter (λ r, primary_address r = py "node-01") (spec_sort_hosts duplicate_records)
        = filter (λ r, primary_address r = py "node-01") duplicate_records
      ∧ variable calls (py "node-01") (py "enabled") = Some (PyBool false).
Proof.
  split; [by vm_compute|]. split; [by vm_compute|]. split; [by vm_compute|].
  destruct (shared_address_last_wins id
              (answers (response 200 (inr duplicate_payload))) (says "invalid")
              remove_dups accepts_all example_url example_token duplicate_payload
              duplicate_records (py "node-01")
              {| primary_address := py "node-01"; group_list := [None]; enabled := false |})
    as (calls & _ & Hreg & Hst & Hvar & _ & Hacc); [by vm_compute..|].
  exists calls. split_and!; [|done..]. apply Hacc. reflexivity.
Defined.

(** X1 on the payload with a shared address, with an inventory that refuses
    empty names. *)
Lemma accepted_payload_outcome_duplicates :
  decode_payload duplicate_payload = Some duplicate_records
  ∧ parse_with id (answers (response 200 (inr duplicate_payload))) (says "invalid")
      remove_dups refuses_empty_names example_url example_token []
    = if forallb names_only duplicate_records
      then attempt refuses_empty_names
             ((add_group <$> remove_dups (spec_sort_hosts duplicate_records
                                          ≫= spec_memberships id))
              ++ (spec_sort_hosts duplicate_records ≫= spec_registration id)) []
      else (Raise TypeError, []).
Proof.
  split; [by vm_compute|].
  apply (accepted_payload_outcome id
           (answers (response 200 (inr duplicate_payload))) (says "invalid")
           remove_dups refuses_empty_names example_url example_token duplicate_payload
           duplicate_records []);
    by vm_compute.
Defined.

(** X9 on the scenario, plain at one address and annotated at the other. *)
Lemma unread_fields_ignored_scenario :
  decode_payload scenario_payload = Some scenario_records
  ∧ decode_payload scenario_payload_annotated = Some scenario_records
  ∧ parse id (answers_at example_url (response 200 (inr scenario_payload))
                (response 200 (inr scenario_payload_annotated)))
      (says "invalid") remove_dups example_url example_token []
    = parse id (answers_at example_url (response 200 (inr scenario_payload))
                  (response 200 (inr scenario_payload_annotated)))
        (says "invalid") remove_dups other_url example_token [].
Proof.
  split; [by vm_compute|]. split; [by vm_compute|].
  apply (unread_fields_ignored id
           (answers_at example_url (response 200 (inr scenario_payload))
              (response 200 (inr scenario_payload_annotated)))
           (says "invalid") remove_dups example_url example_token
           other_url example_token scenario_payload scenario_payload_annotated
           scenario_records []);
    by vm_compute.
Defined.

(** X10 on the scenario and the scenario reversed. *)
Lemma host_order_irrelevant_scenario :
  scenario_records ≡ₚ reverse scenario_records
  ∧ NoDup (primary_address <$> scenario_records)
  ∧ parse id (answers_at example_url (response 200 (inr scenario_payload))
                (response 200 (inr scenario_payload_reversed)))
      (says "invalid") remove_dups example_url example_token []
    = parse id (answers_at example_url (response 200 (inr scenario_payload))
                  (response 200 (inr scenario_payload_reversed)))
        (says "invalid") remove_dups other_url example_token [].
Proof.
  assert (scenario_records ≡ₚ reverse scenario_records) as Hp
    by apply Permutation_swap.
  assert (NoDup (primary_address <$> scenario_records)) as Hnd
    by (apply (bool_decide_unpack _); by vm_compute).
  split; [done|]. split; [done|].
  apply (host_order_irrelevant id
           (answers_at example_url (response 200 (inr scenario_payload))
              (response 200 (inr scenario_payload_reversed)))
           (says "invalid") remove_dups example_url example_token
           other_url example_token scenario_payload scenario_payload_reversed
           scenario_records (reverse scenario_records) []);
    done || by vm_compute.
Defined.

(** X11 on the scenario reversed, which is in order. *)
Lemma sorted_payload_keeps_order_scenario :
  conforms scenario_payload_reversed = true
  ∧ StronglySorted (key_le key_of)
      [host_object "node-01" [PyNone] false;
       host_object "node-02" [PyStr (py "Compute!")] true]
  ∧ sorted_data scenario_payload_reversed
    = Ok [host_object "node-01" [PyNone] false;
          host_object "node-02" [PyStr (py "Compute!")] true].
Proof.
  assert (StronglySorted (key_le key_of)
            [host_object "node-01" [PyNone] false;
             host_object "node-02" [PyStr (py "Compute!")] true]) as Hs
    by (repeat constructor).
  split; [by vm_compute|]. split; [done|].
  apply (sorted_payload_keeps_order scenario_payload_reversed); done || by vm_compute.
Defined.

(** X12 on the payload with an empty list of hosts. *)
Lemma no_hosts_no_calls_empty :
  getitem (payload_of []) (py "hosts") = Ok (PyList [])
  ∧ parse id (answers (response 200 (inr (payload_of [])))) (says "invalid")
      remove_dups example_url example_token []
    = (Ok tt, []).
Proof.
  split; [by vm_compute|].
  apply (no_hosts_no_calls id (answers (response 200 (inr (payload_of []))))
           (says "invalid") remove_dups NoDup_remove_dups elem_of_remove_dups
           example_url example_token (payload_of []) []);
    by vm_compute.
Defined.

(** X13 on the run for one host in one group. *)
Lemma groups_created_and_used_single :
  parse id (answers (response 200 (inr single_payload))) (says "invalid")
    remove_dups example_url example_token []
  = (Ok tt, single_log)
  ∧ (∃ calls,
       single_log = (add_group <$> groups_created single_log) ++ calls
       ∧ groups_created calls = [])
  ∧ NoDup (groups_created single_log)
  ∧ (∀ host g,
       g ∈ groups_of single_log host →
       g = py "all" ∨ g ∈ groups_created single_log)
  ∧ (∀ g, g ∈ groups_created single_log → ∃ host, g ∈ groups_of single_log host).
Proof.
  split; [by vm_compute|].
  apply (groups_created_and_used id (answers (response 200 (inr single_payload)))
           (says "invalid") remove_dups NoDup_remove_dups elem_of_remove_dups
           example_url example_token single_log).
  by vm_compute.
Defined.

(** X14 on the run for one host in one group, with an inventory that
    refuses empty names. *)
Lemma every_host_registered_single :
  parse_with id (answers (response 200 (inr single_payload))) (says "invalid")
    remove_dups refuses_empty_names example_url example_token []
  = (Ok tt, single_log)
  ∧ add_host (PyStr (py "node-01")) (py "all") ∈ single_log
  ∧ set_variable (PyStr (py "node-01")) (py "ansible_host") (PyStr (py "node-01"))
    ∈ single_log
  ∧ set_variable (PyStr (py "node-01")) (py "enabled") (PyBool true) ∈ single_log.
Proof.
  split; [by vm_compute|].
  apply (every_host_registered id (answers (response 200 (inr single_payload)))
           (says "invalid") remove_dups refuses_empty_names example_url example_token
           single_payload [host_object "node-01" [PyStr (py "ops")] true]
           (host_object "node-01" [PyStr (py "ops")] true)
           (PyStr (py "node-01")) (PyBool true) single_log);
    try by vm_compute.
  left.
Defined.

(** X7 on a request answered with status 200 and the scenario payload. *)
Lemma load_inventory_data_outcomes_scenario :
  answers (response 200 (inr scenario_payload)) example_url (headers example_token)
  = response 200 (inr scenario_payload)
  ∧ _load_inventory_data (answers (response 200 (inr scenario_payload)))
      example_url example_token
    = Ok scenario_payload.
Proof.
  split; [reflexivity|].
  apply (proj1 (load_inventory_data_outcomes
                  (answers (response 200 (inr scenario_payload)))
                  example_url example_token) scenario_payload).
  reflexivity.
Defined.
